(** * Voice registry (voice-embedding-api/app.py): enrollment, store, matcher

    A shallow embedding of the enrollment consistency validator
    ([create_voice_profile]), the directory-of-files profile store
    ([save_voice_profile], [load_all_profiles], [delete_voice]) and the
    identification matcher ([identify_speaker], [identify_voice]).

    Modelling choices.
    - Python/NumPy floats are idealised as real numbers ([R]); rounding is
      not modelled, so "within floating tolerance" reads as exact equality.
    - An exception is a value of [exn]; a computation that may raise has type
      [res A].
    - The registry directory is a finite map from file names to file
      contents; a file either parses as a profile or makes [json.load] raise.
    - [uuid.uuid4()] and [time.time()] are passed in as arguments, and so
      is the way the write to the registry ends ([write_outcome]).
    - The WavLM forward pass and [int] on a form field are parameters.
    - Temporary audio files live outside the registry and are left out; of
      what is printed, only the warnings of [load_all_profiles] are kept. *)

From Stdlib Require Import Reals Lra String Ascii ZArith.
From stdpp Require Import gmap strings list fin_maps sorting.

Local Open Scope R_scope.
Set Warnings "-clear-no-such-hyp".

(** ** Exceptions *)

Inductive exn : Type :=
  | ValueError_dimension
      (* sklearn: incompatible dimension for X and Y / array with 0 features *)
  | ValueError_inconsistent (min_similarity : R)
      (* "Voice samples inconsistent. Min similarity: ..." *)
  | ValueError_empty_max      (* max() of an empty sequence *)
  | ValueError_empty_min      (* min() of an empty sequence *)
  | StatisticsError           (* statistics.mean of no data points *)
  | IndexError                (* list index out of range *)
  | JSONDecodeError           (* open/json.load on an unreadable record *)
  | OSError                   (* a failed write to the registry directory *)
  | ExtractionError (msg : string). (* anything raised while embedding audio *)

Inductive res (A : Type) : Type :=
  | Ok (a : A)
  | Raise (e : exn).
Arguments Ok {A} a.
Arguments Raise {A} e.

#[global] Instance res_ret : MRet res := λ A a, Ok a.
#[global] Instance res_bind : MBind res := λ A B f m,
  match m with Ok a => f a | Raise e => Raise e end.

Definition is_ok {A} (m : res A) : Prop := ∃ a, m = Ok a.

(** ** Configuration *)

Definition IDENTIFICATION_THRESHOLD : R := 0.82.
Definition REQUIRED_PHRASES : nat := 5.
Definition CONSISTENCY_THRESHOLD : R := 0.70. (* literal at app.py:107 *)

Definition ENROLLMENT_PHRASES : list string := [
  "The quick brown fox jumps over the lazy dog";
  "She sells seashells by the seashore";
  "How much wood would a woodchuck chuck if a woodchuck could chuck wood";
  "Peter Piper picked a peck of pickled peppers";
  "Red leather yellow leather";
  "The five boxing wizards jump quickly";
  "Pack my box with five dozen liquor jugs";
  "Sphinx of black quartz judge my vow";
  "How vexingly quick daft zebras jump";
  "Waltz bad nymph for quick jigs vex";
  "Please call Stella and ask her to bring these things with her from the store";
  "The birch canoe slid on the smooth planks";
  "Say the words below to complete voice setup";
  "My voice is stronger than passwords";
  "Ready to learn my voice"
]%string.

(** ** Vectors and the similarity engine *)

Definition embedding := list R.

Definition rsum (l : list R) : R := foldr Rplus 0 l.

Definition dot (a b : embedding) : R := rsum (zip_with Rmult a b).

(** [np.linalg.norm] *)
Definition norm (a : embedding) : R := sqrt (dot a a).

Definition vadd (a b : embedding) : embedding := zip_with Rplus a b.
Definition vdiv (a : embedding) (c : R) : embedding := map (λ x, x / c) a.

(** [sklearn.metrics.pairwise.cosine_similarity([a], [b])[0][0]]: the
    normalised dot product.  Rows of different width, or of width 0, are
    rejected with a [ValueError].  A zero row has similarity 0 with every
    row; here that is the value of [0 / 0] in [R]. *)
Definition cosine_similarity (a b : embedding) : res R :=
  if decide (length a = length b ∧ (0 < length a)%nat)
  then Ok (dot a b / (norm a * norm b))
  else Raise ValueError_dimension.

(** [statistics.mean] *)
Definition statistics_mean (l : list R) : res R :=
  match l with
  | [] => Raise StatisticsError
  | _ => Ok (rsum l / INR (length l))
  end.

(** Built-in [min] and [max] over a list. *)
Definition py_min (l : list R) : res R :=
  match l with
  | [] => Raise ValueError_empty_min
  | x :: xs => Ok (foldl Rmin x xs)
  end.

Definition py_max (l : list R) : res R :=
  match l with
  | [] => Raise ValueError_empty_max
  | x :: xs => Ok (foldl Rmax x xs)
  end.

(** [np.mean(X, axis=0)] for a list of rows of one width (rows of
    different widths do not get this far: the pairwise check raises
    first). *)
Definition np_mean_axis0 (X : list embedding) : embedding :=
  match X with
  | [] => []
  | x :: xs => map (λ s, s / INR (length X)) (foldl vadd x xs)
  end.

(** [l[i]] for a Python list and a Python int *)
Definition py_index {A} (l : list A) (i : Z) : res A :=
  let n := Z.of_nat (length l) in
  let k := if decide (0 ≤ i)%Z then i else (n + i)%Z in
  if decide (0 ≤ k < n)%Z
  then match l !! Z.to_nat k with Some x => Ok x | None => Raise IndexError end
  else Raise IndexError.

(** ** Profiles *)

Record profile : Type := Profile {
  user_id : string;
  user_name : string;
  voice_embedding : embedding;
  phrase_embeddings : list embedding;
  phrase_indices : list Z;
  phrases_used : list string;
  consistency_score : R;
  min_consistency : R;
  enrollment_timestamp : R;
  embedding_dim : nat
}.

(** ** Consistency validator: [create_voice_profile]

    The division by [np.linalg.norm(centroid)] is written as it stands;
    past the gate the norm is never zero ([mean_consistent_nonzero]). *)

(** The nested loop of app.py:98-102: every pair [i < j], row by row. *)
Fixpoint pairwise_similarities (embeddings : list embedding) : res (list R) :=
  match embeddings with
  | [] => Ok []
  | e :: rest =>
      row ← mapM (cosine_similarity e) rest;
      below ← pairwise_similarities rest;
      Ok (row ++ below)
  end.

Definition create_voice_profile (uuid4 : string) (now : R)
    (embeddings : list embedding) (name : string) (indices : list Z)
    : res profile :=
  similarities ← pairwise_similarities embeddings;
  avg_consistency ← statistics_mean similarities;
  min_consistency ← py_min similarities;
  if Rlt_dec min_consistency CONSISTENCY_THRESHOLD
  then Raise (ValueError_inconsistent min_consistency)
  else
    let centroid := np_mean_axis0 embeddings in
    let centroid := vdiv centroid (norm centroid) in
    used ← mapM (py_index ENROLLMENT_PHRASES) indices;
    Ok {| user_id := uuid4;
          user_name := name;
          voice_embedding := centroid;
          phrase_embeddings := embeddings;
          phrase_indices := indices;
          phrases_used := used;
          consistency_score := avg_consistency;
          min_consistency := min_consistency;
          enrollment_timestamp := now;
          embedding_dim := length centroid |}.

(** ** Profile store: one file per profile in [REGISTRY_DIR] *)

(** What [open] followed by [json.load] makes of a file: a profile, or an
    exception (empty, truncated or otherwise unparsable content).  Records
    are written by [save_voice_profile] only, so a file that parses holds a
    profile. *)
Inductive file : Type :=
  | Json (p : profile)
  | Unreadable.

Abbreviation store := (gmap string file).

(** [filename.endswith(suffix)] *)
Definition endswith (filename suffix : string) : bool :=
  let n := String.length filename in
  let m := String.length suffix in
  if decide (m ≤ n)%nat
  then bool_decide (substring (n - m) m filename = suffix)
  else false.

(** [f"{user_id}.json"], relative to [REGISTRY_DIR] *)
Definition profile_path (uid : string) : string := uid +:+ ".json".

(** How a write to the registry can end. *)
Inductive write_outcome : Type :=
  | WriteCompletes
  | OpenRaises       (* open(path, "w") raises: nothing is created *)
  | DumpRaises.      (* json.dump is cut short after open succeeded *)

(** [open(path, "w")] creates the file or truncates it; an empty file does
    not parse. *)
Definition open_w (path : string) (st : store) : store := <[path := Unreadable]> st.

(** [json.dump(profile, f)] run to completion on the opened file *)
Definition json_dump (p : profile) (path : string) (st : store) : store :=
  <[path := Json p]> st.

Definition save_voice_profile (io : write_outcome) (p : profile) (st : store)
    : res string * store :=
  let path := profile_path (user_id p) in
  match io with
  | OpenRaises => (Raise OSError, st)
  | DumpRaises => (Raise OSError, open_w path st)
  | WriteCompletes => (Ok path, json_dump p path (open_w path st))
  end.

(** The loop body of [load_all_profiles] over a directory listing; the
    second component collects the file names reported by
    [print(f"Error loading profile {filename}: {e}")]. *)
Fixpoint load_entries (entries : list (string * file)) : list profile * list string :=
  match entries with
  | [] => ([], [])
  | (filename, f) :: rest =>
      let '(profiles, warned) := load_entries rest in
      if endswith filename ".json"
      then match f with
           | Json p => (p :: profiles, warned)
           | Unreadable => (profiles, filename :: warned)
           end
      else (profiles, warned)
  end.

(** [os.listdir] enumerates in an order of its own; here the map's.
    [REGISTRY_DIR] exists: it is created when the module is loaded. *)
Definition load_all_profiles (st : store) : list profile * list string :=
  load_entries (map_to_list st).

(** Modelled from the spec: [get(user_id)], which app.py does not have
    ("get(user_id) -> VoiceProfile: fails with NotFound if absent"; an
    unreadable record is fatal at the single-get level). *)
Inductive get_result : Type :=
  | Found (p : profile)
  | NotFound
  | StorageCorruption.

Definition get (uid : string) (st : store) : get_result :=
  match st !! profile_path uid with
  | Some (Json p) => Found p
  | Some Unreadable => StorageCorruption
  | None => NotFound
  end.

(** ** HTTP responses *)

Inductive error_body : Type :=
  | InvalidPhraseFormat
  | CountMismatch (n_audios n_indices : nat)
  | TooFewPhrases
  | InvalidPhraseIndices (bad : list Z)
  | AlreadyRegistered (name : string)
  | RegistrationFailed (e : exn)
  | IdentificationFailed (e : exn)
  | ProfileNotFound (uid : string)
  | DeleteFailed (e : exn).

Inductive response (A : Type) : Type :=
  | Success (body : A)
  | JSONError (status_code : nat) (err : error_body).
Arguments Success {A} body.
Arguments JSONError {A} status_code err.

(** ** [delete_voice] *)

Definition delete_voice (uid : string) (st : store) : response string * store :=
  let path := profile_path uid in
  match st !! path with
  | None => (JSONError 404 (ProfileNotFound uid), st)
  | Some Unreadable => (JSONError 500 (DeleteFailed JSONDecodeError), st)
  | Some (Json p) => (Success (user_name p), delete path st)
  end.

(** ** Identification matcher *)

Record score_entry : Type := ScoreEntry {
  entry_user_id : string;
  entry_user_name : string;
  score : R;
  centroid_similarity : R;
  max_phrase_similarity : R
}.

(** One iteration of the loop at app.py:166-196, up to the append. *)
Definition score_profile (test_embedding : embedding) (p : profile) : res score_entry :=
  centroid_sim ← cosine_similarity test_embedding (voice_embedding p);
  phrase_similarities ← mapM (cosine_similarity test_embedding) (phrase_embeddings p);
  max_phrase_sim ← py_max phrase_similarities;
  let final_score := Rmax centroid_sim max_phrase_sim in
  Ok {| entry_user_id := user_id p;
        entry_user_name := user_name p;
        score := final_score;
        centroid_similarity := centroid_sim;
        max_phrase_similarity := max_phrase_sim |}.

Definition match_state : Type := option profile * R * list score_entry.

Fixpoint identify_loop (test_embedding : embedding) (profiles : list profile)
    (acc : match_state) : res match_state :=
  match profiles with
  | [] => Ok acc
  | p :: rest =>
      e ← score_profile test_embedding p;
      let '(best_match, best_score, all_scores) := acc in
      let all_scores := all_scores ++ [e] in
      if Rgt_dec (score e) best_score
      then identify_loop test_embedding rest (Some p, score e, all_scores)
      else identify_loop test_embedding rest (best_match, best_score, all_scores)
  end.

(** [all_scores.sort(key=lambda x: x["score"], reverse=True)]: a stable
    sort into descending order. *)
Fixpoint insert_desc (e : score_entry) (l : list score_entry) : list score_entry :=
  match l with
  | [] => [e]
  | e' :: l' =>
      if Rge_dec (score e) (score e') then e :: l else e' :: insert_desc e l'
  end.

Definition sort_desc (l : list score_entry) : list score_entry :=
  foldr insert_desc [] l.

(** Third component of [identify_speaker]'s result: a message for the empty
    registry, the sorted scores otherwise. *)
Inductive ranking : Type :=
  | Message (msg : string)
  | Scores (all_scores : list score_entry).

Definition identify_profiles (test_embedding : embedding) (threshold : R)
    (profiles : list profile) : res (option profile * R * ranking) :=
  match profiles with
  | [] => Ok (None, 0, Message "No profiles in registry")
  | _ =>
      '(best_match, best_score, all_scores) ←
        identify_loop test_embedding profiles (None, 0, []);
      let all_scores := sort_desc all_scores in
      if Rge_dec best_score threshold
      then Ok (best_match, best_score, Scores all_scores)
      else Ok (None, best_score, Scores all_scores)
  end.

Definition identify_speaker (test_embedding : embedding) (threshold : R)
    (st : store) : res (option profile * R * ranking) :=
  identify_profiles test_embedding threshold (load_all_profiles st).1.

(** ** Strings *)

(** [str.lower] on ASCII text *)
Definition lower_ascii (c : ascii) : ascii :=
  let n := nat_of_ascii c in
  if decide (65 ≤ n ≤ 90)%nat then ascii_of_nat (n + 32) else c.

Fixpoint lower (s : string) : string :=
  match s with
  | EmptyString => EmptyString
  | String c rest => String (lower_ascii c) (lower rest)
  end.

(** [s.split(",")] *)
Fixpoint split_comma (s : string) : list string :=
  match s with
  | EmptyString => [EmptyString]
  | String c rest =>
      if decide (c = ","%char) then EmptyString :: split_comma rest
      else match split_comma rest with
           | [] => [String c EmptyString]
           | w :: ws => String c w :: ws
           end
  end.

(** [any(p["user_name"].lower() == user_name.lower() for p in existing)] *)
Definition name_taken (existing : list profile) (name : string) : bool :=
  existsb (λ p, bool_decide (lower (user_name p) = lower name)) existing.

(** [all_scores[:k]], on either kind of third component *)
Definition slice_to (k : nat) (r : ranking) : ranking :=
  match r with
  | Message msg => Message (substring 0 k msg)
  | Scores l => Scores (take k l)
  end.

(** ** Request handlers *)

Record registered : Type := Registered {
  reg_user_id : string;
  reg_user_name : string;
  reg_phrases_recorded : nat;
  reg_consistency_score : R
}.

Inductive identification : Type :=
  | Identified (uid name : string) (confidence_score threshold enrollment_date : R)
      (top : ranking)
  | NotRecognized (best_score threshold : R) (top : ranking).

Section Handlers.

(** Uploaded audio, and the parts of the pipeline that are not arithmetic:
    [int(x.strip())] on a form field ([None] for [ValueError]), and
    loading, padding and running WavLM with mean pooling over time. *)
Context {audio : Type}.
Variable py_int_strip : string → option Z.
Variable wavlm_mean_pool : audio → res embedding.

(** [torch.nn.functional.normalize(v, p=2, dim=0)] *)
Definition torch_normalize (v : embedding) : embedding :=
  vdiv v (Rmax (norm v) 1e-12).

Definition extract_voice_embedding (a : audio) : res embedding :=
  hidden ← wavlm_mean_pool a;
  Ok (torch_normalize hidden).

(** The [try] block of [register_voice] up to the call of
    [save_voice_profile] (app.py:291-305). *)
Definition build_profile (uuid4 : string) (now : R) (name : string)
    (phrase_idx_list : list Z) (audios : list audio) : res profile :=
  embeddings ← mapM extract_voice_embedding audios;
  create_voice_profile uuid4 now embeddings name phrase_idx_list.

(** The rest of the [try] block; [except Exception] turns whatever is
    raised into a 500 response. *)
Definition register_try (uuid4 : string) (now : R) (io : write_outcome)
    (name : string) (phrase_idx_list : list Z) (audios : list audio) (st : store)
    : response registered * store :=
  match build_profile uuid4 now name phrase_idx_list audios with
  | Raise e => (JSONError 500 (RegistrationFailed e), st)
  | Ok p =>
      match save_voice_profile io p st with
      | (Raise e, st') => (JSONError 500 (RegistrationFailed e), st')
      | (Ok _, st') =>
          (Success {| reg_user_id := user_id p;
                      reg_user_name := user_name p;
                      reg_phrases_recorded := length (phrase_embeddings p);
                      reg_consistency_score := consistency_score p |},
           st')
      end
  end.

Definition register_voice (uuid4 : string) (now : R) (io : write_outcome)
    (name : string) (indices : string) (audios : list audio) (st : store)
    : response registered * store :=
  match mapM py_int_strip (split_comma indices) with
  | None => (JSONError 400 InvalidPhraseFormat, st)
  | Some phrase_idx_list =>
    if decide (length audios ≠ length phrase_idx_list)
    then (JSONError 400 (CountMismatch (length audios) (length phrase_idx_list)), st)
    else if decide (length audios < REQUIRED_PHRASES)%nat
    then (JSONError 400 TooFewPhrases, st)
    else
      let invalid_indices :=
        filter (λ i : Z, (i < 0)%Z ∨ (Z.of_nat (length ENROLLMENT_PHRASES) ≤ i)%Z)
               phrase_idx_list in
      if decide (invalid_indices ≠ [])
      then (JSONError 400 (InvalidPhraseIndices invalid_indices), st)
      else
        let existing_profiles := (load_all_profiles st).1 in
        if name_taken existing_profiles name
        then (JSONError 400 (AlreadyRegistered name), st)
        else register_try uuid4 now io name phrase_idx_list audios st
  end.

Definition identify_voice (a : audio) (st : store) : response identification :=
  match test_embedding ← extract_voice_embedding a;
        identify_speaker test_embedding IDENTIFICATION_THRESHOLD st with
  | Raise e => JSONError 500 (IdentificationFailed e)
  | Ok (Some m, score, all_scores) =>
      Success (Identified (user_id m) (user_name m) score IDENTIFICATION_THRESHOLD
                 (enrollment_timestamp m) (slice_to 5 all_scores))
  | Ok (None, score, all_scores) =>
      Success (NotRecognized score IDENTIFICATION_THRESHOLD (slice_to 3 all_scores))
  end.

End Handlers.

(** ** Specification-side notions

    These follow the wording of the specification and are what the
    embedded code is compared with. *)

(** Cosine similarity as a number: dot product over the product of norms. *)
Definition cosine (a b : embedding) : R := dot a b / (norm a * norm b).

(** All vectors of a batch live in the same space of dimension [D]. *)
Definition same_dim (D : nat) (l : list embedding) : Prop :=
  Forall (λ e, length e = D) l.

Definition is_min (m : R) (l : list R) : Prop := m ∈ l ∧ ∀ x, x ∈ l → m <= x.
Definition is_max (m : R) (l : list R) : Prop := m ∈ l ∧ ∀ x, x ∈ l → x <= m.

(** [x] is the similarity of an unordered pair of distinct samples. *)
Definition pair_similarity (embeddings : list embedding) (x : R) : Prop :=
  ∃ i j a b, (i < j)%nat ∧ embeddings !! i = Some a ∧ embeddings !! j = Some b
             ∧ x = cosine a b.

Definition min_pairwise (embeddings : list embedding) (m : R) : Prop :=
  pair_similarity embeddings m ∧ ∀ x, pair_similarity embeddings x → m <= x.

(** Element-wise arithmetic mean of a batch of [D]-dimensional vectors. *)
Definition elementwise_mean (D : nat) (X : list embedding) : embedding :=
  map (λ k, rsum (map (λ e, nth k e 0) X) / INR (length X)) (seq 0 D).

(** Re-normalisation to unit L2 norm. *)
Definition renormalize (v : embedding) : embedding :=
  map (λ x, x / sqrt (rsum (map (λ y, y * y) v))) v.

(** [s] is max(centroid_sim, max(phrase_sims)) for probe and profile. *)
Definition is_score (probe : embedding) (p : profile) (s : R) : Prop :=
  ∃ mp, is_max mp (map (cosine probe) (phrase_embeddings p))
        ∧ s = Rmax (cosine probe (voice_embedding p)) mp.

(** An entry of the ranking belongs to a profile and carries its score. *)
Definition entry_of (probe : embedding) (p : profile) (e : score_entry) : Prop :=
  entry_user_id e = user_id p ∧ entry_user_name e = user_name p
  ∧ is_score probe p (score e).

Definition descending (l : list score_entry) : Prop :=
  StronglySorted (λ e1 e2, score e2 <= score e1) l.

(** A stored profile as the data model has it: at least one phrase
    embedding, every vector of dimension [D]. *)
Definition well_formed (D : nat) (p : profile) : Prop :=
  length (voice_embedding p) = D ∧ phrase_embeddings p ≠ []
  ∧ same_dim D (phrase_embeddings p).

(** Indices accepted by the check at app.py:271-280. *)
Definition valid_indices (l : list Z) : Prop :=
  Forall (λ i, (0 ≤ i < Z.of_nat (length ENROLLMENT_PHRASES))%Z) l.

(** Case-insensitive collision of [name] with a profile listed from [st]. *)
Definition collides (st : store) (name : string) : Prop :=
  ∃ filename p, endswith filename ".json" = true ∧ st !! filename = Some (Json p)
                ∧ lower (user_name p) = lower name.

(** The store after a call is the store before it, or the store before it
    with one complete profile added under its own path. *)
Definition all_or_nothing (st st' : store) : Prop :=
  st' = st ∨ ∃ p, st' = <[profile_path (user_id p) := Json p]> st.

(** The similarities of [pairwise_similarities] as plain numbers. *)
Fixpoint all_pairs (embeddings : list embedding) : list R :=
  match embeddings with
  | [] => []
  | e :: rest => map (cosine e) rest ++ all_pairs rest
  end.

(** What [register_voice] checks before it looks at the registry. *)
Definition passes_validation (py_int_strip : string → option Z)
    (indices : string) (n_audios : nat) (phrase_idx_list : list Z) : Prop :=
  mapM py_int_strip (split_comma indices) = Some phrase_idx_list
  ∧ n_audios = length phrase_idx_list
  ∧ (REQUIRED_PHRASES ≤ n_audios)%nat
  ∧ valid_indices phrase_idx_list.

(** Every vector of a stored profile has unit L2 norm. *)
Definition unit_norm_profile (p : profile) : Prop :=
  norm (voice_embedding p) = 1 ∧ Forall (λ e, norm e = 1) (phrase_embeddings p).

(** The response of a successful registration of [p]. *)
Definition summary (p : profile) : registered :=
  {| reg_user_id := user_id p;
     reg_user_name := user_name p;
     reg_phrases_recorded := length (phrase_embeddings p);
     reg_consistency_score := consistency_score p |}.

(** ** Sample data *)

Definition e1 : embedding := [1; 0].
Definition e2 : embedding := [0; 1].
Definition minus_e1 : embedding := [-1; 0].
Definition twice_e1 : embedding := [2; 0].

Definition sample_indices : list Z := [0; 1; 2; 3; 4]%Z.

(** A profile as enrolment of five copies of [v] leaves it when [v] is a
    unit vector. *)
Definition sample_profile (uid name : string) (v : embedding) : profile :=
  {| user_id := uid;
     user_name := name;
     voice_embedding := v;
     phrase_embeddings := replicate 5 v;
     phrase_indices := sample_indices;
     phrases_used := take 5 ENROLLMENT_PHRASES;
     consistency_score := 1;
     min_consistency := 1;
     enrollment_timestamp := 0;
     embedding_dim := 2 |}.

(** [int] on a single decimal digit *)
Definition int_of_digit (s : string) : option Z :=
  match s with
  | String c EmptyString =>
      let n := nat_of_ascii c in
      if decide (48 ≤ n ≤ 57)%nat then Some (Z.of_nat (n - 48)) else None
  | _ => None
  end.

(** Recordings that stand for their own pooled hidden state. *)
Definition pooled (a : embedding) : res embedding := Ok a.

(** The form field naming the first five phrases. *)
Definition sample_form : string := "0,1,2,3,4".

(** A registry holding one profile, enrolled as "Alice". *)
Definition alice : profile := sample_profile "a1" "Alice" e1.
Definition alice_store : store := {[ profile_path "a1" := Json alice ]}.

(** What one directory entry contributes to the listing. *)
Definition readable_profile (entry : string * file) : option profile :=
  if endswith entry.1 ".json"
  then match entry.2 with Json p => Some p | Unreadable => None end
  else None.

(** ** The read-only endpoints *)

(** Body of [/health]; the model name and the device are constants of the
    process and are left out. *)
Record health_body : Type := HealthBody {
  status : string;
  registered_voices : nat;
  health_threshold : R
}.

Definition health (st : store) : health_body :=
  let profiles := (load_all_profiles st).1 in
  {| status := "healthy";
     registered_voices := length profiles;
     health_threshold := IDENTIFICATION_THRESHOLD |}.

(** One element of [registry] in [get_voice_registry]. *)
Record voice_entry : Type := VoiceEntry {
  voice_user_id : string;
  voice_user_name : string;
  voice_enrollment_date : R;
  voice_phrases_count : nat;
  voice_consistency_score : R;
  voice_phrases_used : list string
}.

Record registry_body : Type := RegistryBody {
  total_voices : nat;
  voices : list voice_entry;
  registry_threshold : R
}.

Definition registry_entry (p : profile) : voice_entry :=
  {| voice_user_id := user_id p;
     voice_user_name := user_name p;
     voice_enrollment_date := enrollment_timestamp p;
     voice_phrases_count := length (phrase_embeddings p);
     voice_consistency_score := consistency_score p;
     voice_phrases_used := phrases_used p |}.

Definition get_voice_registry (st : store) : registry_body :=
  let profiles := (load_all_profiles st).1 in
  let registry := map registry_entry profiles in
  {| total_voices := length registry;
     voices := registry;
     registry_threshold := IDENTIFICATION_THRESHOLD |}.



(** ** The client side of registration (test_api.py) *)



(** Number of reads in the recording loop of [record_audio],
    [int(SAMPLE_RATE / chunk * duration)] with 16000 and 1024: the quotient
    15.625 is a binary fraction, so the product with an integer duration
    (of magnitude below 2^46) is exact and [int] truncates it towards zero;
    [range] of a negative bound is empty. *)
Definition RECORD_SAMPLE_RATE : Z := 16000.
Definition RECORD_CHUNK : Z := 1024.

Definition recorded_chunks (duration : Z) : nat :=
  Z.to_nat (Z.quot (125 * duration) 8).

(** Frames handed to [wave]: every read returns [chunk] frames. *)
Definition recorded_frames (duration : Z) : Z :=
  (RECORD_CHUNK * Z.of_nat (recorded_chunks duration))%Z.

(** ** Registry invariants *)









(** * Properties *)

(** ** The error monad *)

Lemma bind_Ok {A B} (f : A → res B) (m : res A) (b : B) :
  m ≫= f = Ok b ↔ ∃ a, m = Ok a ∧ f a = Ok b.
Proof.
  destruct m as [a|e]; simpl; split.
  - eauto.
  - by intros (a' & [= <-] & ?).
  - done.
  - by intros (? & ? & ?).
Qed.

Lemma mapM_res_Ok {A B} (f : A → res B) (g : A → B) (l : list A) :
  Forall (λ x, f x = Ok (g x)) l → mapM f l = Ok (map g l).
Proof.
  induction 1 as [|x l Hx _ IH]; [done|].
  simpl. rewrite Hx. simpl. by rewrite IH.
Qed.

Lemma mapM_res_replicate {A B} (f : A → res B) (x : A) (y : B) (n : nat) :
  f x = Ok y → mapM f (replicate n x) = Ok (replicate n y).
Proof.
  intros Hx. induction n as [|n IH]; [done|].
  simpl. rewrite Hx. simpl. by rewrite IH.
Qed.


(** ** Sums, dot products and norms *)


Lemma rsum_replicate (n : nat) (x : R) : rsum (replicate n x) = INR n * x.
Proof.
  induction n as [|n IH]; [simpl; lra|].
  rewrite S_INR. simpl. rewrite IH. lra.
Qed.


Lemma dot_cons (x y : R) (a b : embedding) :
  dot (x :: a) (y :: b) = x * y + dot a b.
Proof. done. Qed.

Lemma dot_comm (a b : embedding) : dot a b = dot b a.
Proof.
  revert b. induction a as [|x a IH]; intros [|y b]; try done.
  rewrite !dot_cons, IH. lra.
Qed.

Lemma dot_self_nonneg (a : embedding) : 0 <= dot a a.
Proof.
  induction a as [|x a IH]; [unfold dot; simpl; lra|].
  rewrite dot_cons. nra.
Qed.

Lemma dot_self_zero (a b : embedding) : dot a a = 0 → dot a b = 0.
Proof.
  revert b. induction a as [|x a IH]; intros b; [done|].
  rewrite dot_cons. intros H. pose proof (dot_self_nonneg a) as Ha.
  assert (x = 0) as -> by nra. assert (dot a a = 0) as Ha0 by nra.
  destruct b as [|y b]; [done|]. rewrite dot_cons, (IH b Ha0). lra.
Qed.

Lemma dot_vadd_l (a b c : embedding) :
  length a = length b → dot (vadd a b) c = dot a c + dot b c.
Proof.
  revert b c. induction a as [|x a IH]; intros [|y b] c; try done.
  - intros _. unfold vadd, dot. simpl. lra.
  - intros [= Hl]. destruct c as [|z c]; [unfold vadd, dot; simpl; lra|].
    unfold vadd in *. simpl. rewrite !dot_cons, IH by done. lra.
Qed.

Lemma dot_vdiv (a b : embedding) (c : R) :
  dot (vdiv a c) (vdiv b c) = dot a b / (c * c).
Proof.
  revert b. induction a as [|x a IH]; intros [|y b]; simpl;
    try (unfold dot; simpl; lra).
  rewrite !dot_cons, IH.
  destruct (Req_dec_T c 0) as [->|Hc].
  - unfold Rdiv. rewrite Rmult_0_l, !Rinv_0. lra.
  - field. done.
Qed.

Lemma length_vadd (a b : embedding) :
  length a = length b → length (vadd a b) = length a.
Proof. intros H. unfold vadd. rewrite length_zip_with. lia. Qed.

Lemma length_vdiv (a : embedding) (c : R) : length (vdiv a c) = length a.
Proof. apply length_map. Qed.

Lemma norm_nonneg (a : embedding) : 0 <= norm a.
Proof. apply sqrt_pos. Qed.

Lemma norm_sqr (a : embedding) : norm a * norm a = dot a a.
Proof. apply sqrt_sqrt, dot_self_nonneg. Qed.


(** Dividing a non-zero vector by its norm gives a unit vector. *)
Lemma norm_vdiv_norm (a : embedding) : 0 < dot a a → norm (vdiv a (norm a)) = 1.
Proof.
  intros Ha. unfold norm at 1. rewrite dot_vdiv, norm_sqr.
  replace (dot a a / dot a a) with 1 by (field; lra). apply sqrt_1.
Qed.

Lemma vdiv_1 (a : embedding) : vdiv a 1 = a.
Proof.
  unfold vdiv. induction a as [|x a IH]; [done|].
  simpl. rewrite IH. f_equal. lra.
Qed.

Lemma cosine_self (a : embedding) : 0 < dot a a → cosine a a = 1.
Proof. intros Ha. unfold cosine. rewrite norm_sqr. field. lra. Qed.

(** A positive similarity needs a positive dot product. *)
Lemma cosine_pos_dot (a b : embedding) : 0 < cosine a b → 0 < dot a b.
Proof.
  unfold cosine. intros H.
  pose proof (norm_nonneg a) as Ha. pose proof (norm_nonneg b) as Hb.
  destruct (Req_dec_T (norm a * norm b) 0) as [E|E].
  - rewrite E in H. unfold Rdiv in H. rewrite Rinv_0 in H. lra.
  - assert (0 < norm a * norm b) as Hp by nra.
    apply Rnot_le_lt. intros Hle.
    assert (dot a b / (norm a * norm b) <= 0); [|lra].
    unfold Rdiv. apply Rinv_0_lt_compat in Hp. nra.
Qed.

Lemma cosine_similarity_Ok (D : nat) (a b : embedding) :
  (0 < D)%nat → length a = D → length b = D →
  cosine_similarity a b = Ok (cosine a b).
Proof.
  intros HD Ha Hb. unfold cosine_similarity.
  rewrite decide_True; [done|]. split; lia.
Qed.

(** ** Pairwise similarities *)

Lemma pairwise_similarities_all_pairs (D : nat) (embeddings : list embedding) :
  (0 < D)%nat → same_dim D embeddings →
  pairwise_similarities embeddings = Ok (all_pairs embeddings).
Proof.
  intros HD. induction 1 as [|e rest He Hrest IH]; [done|].
  simpl. rewrite (mapM_res_Ok _ (cosine e)).
  - simpl. by rewrite IH.
  - eapply Forall_impl; [exact Hrest|]. intros b Hb. simpl in Hb.
    by apply (cosine_similarity_Ok D).
Qed.

Lemma elem_of_all_pairs (embeddings : list embedding) (x : R) :
  x ∈ all_pairs embeddings ↔ pair_similarity embeddings x.
Proof.
  induction embeddings as [|e rest IH]; simpl.
  - split; [by intros ?%elem_of_nil|].
    by intros (i & j & a & b & _ & Hi & _).
  - rewrite elem_of_app, list_elem_of_fmap, IH. split.
    + intros [(b & -> & Hb)|(i & j & a & b & Hij & Hi & Hj & ->)].
      * apply list_elem_of_lookup in Hb as [j Hj].
        exists 0%nat, (S j), e, b. repeat split; [lia|done..].
      * exists (S i), (S j), a, b. repeat split; [lia|done..].
    + intros (i & j & a & b & Hij & Hi & Hj & ->).
      destruct j as [|j]; [lia|]. simpl in Hj.
      destruct i as [|i]; simpl in Hi.
      * injection Hi as <-. left. exists b. split; [done|].
        by apply list_elem_of_lookup_2 in Hj.
      * right. exists i, j, a, b. repeat split; [lia|done..].
Qed.

(** There are N·(N−1)/2 of them. *)
Lemma length_all_pairs (embeddings : list embedding) :
  length (all_pairs embeddings)
  = (length embeddings * (length embeddings - 1) / 2)%nat.
Proof.
  induction embeddings as [|e rest IH]; [done|].
  simpl all_pairs. rewrite length_app, length_map, IH. simpl length.
  replace (S (length rest) - 1)%nat with (length rest) by lia.
  destruct (length rest) as [|n]; [done|].
  replace (S n - 1)%nat with n by lia.
  replace (S (S n) * S n)%nat with (S n * n + S n * 2)%nat by lia.
  rewrite Nat.div_add by lia. lia.
Qed.

Lemma all_pairs_nonempty (embeddings : list embedding) :
  (2 ≤ length embeddings)%nat → all_pairs embeddings ≠ [].
Proof.
  destruct embeddings as [|a [|b rest]]; simpl; [lia|lia|done].
Qed.

(** ** Built-in [min], [max] and the mean *)

Lemma foldl_Rmin_spec (x : R) (xs : list R) : is_min (foldl Rmin x xs) (x :: xs).
Proof.
  revert x. induction xs as [|y xs IH]; intros x; simpl.
  - split; [apply list_elem_of_here|]. intros z ->%list_elem_of_singleton. lra.
  - destruct (IH (Rmin x y)) as [Hin Hle]. split.
    + apply elem_of_cons in Hin as [Heq|Hin].
      * rewrite Heq. unfold Rmin. destruct (Rle_dec x y);
          [apply list_elem_of_here|apply list_elem_of_further, list_elem_of_here].
      * by do 2 apply list_elem_of_further.
    + intros z Hz.
      assert (foldl Rmin (Rmin x y) xs <= Rmin x y) as H0
        by apply Hle, list_elem_of_here.
      apply elem_of_cons in Hz as [->|Hz].
      * pose proof (Rmin_l x y). lra.
      * apply elem_of_cons in Hz as [->|Hz].
        -- pose proof (Rmin_r x y). lra.
        -- by apply Hle, list_elem_of_further.
Qed.

Lemma foldl_Rmax_spec (x : R) (xs : list R) : is_max (foldl Rmax x xs) (x :: xs).
Proof.
  revert x. induction xs as [|y xs IH]; intros x; simpl.
  - split; [apply list_elem_of_here|]. intros z ->%list_elem_of_singleton. lra.
  - destruct (IH (Rmax x y)) as [Hin Hle]. split.
    + apply elem_of_cons in Hin as [Heq|Hin].
      * rewrite Heq. unfold Rmax. destruct (Rle_dec x y);
          [apply list_elem_of_further, list_elem_of_here|apply list_elem_of_here].
      * by do 2 apply list_elem_of_further.
    + intros z Hz.
      assert (Rmax x y <= foldl Rmax (Rmax x y) xs) as H0
        by apply Hle, list_elem_of_here.
      apply elem_of_cons in Hz as [->|Hz].
      * pose proof (Rmax_l x y). lra.
      * apply elem_of_cons in Hz as [->|Hz].
        -- pose proof (Rmax_r x y). lra.
        -- by apply Hle, list_elem_of_further.
Qed.

Lemma py_min_Ok (l : list R) : l ≠ [] → ∃ m, py_min l = Ok m ∧ is_min m l.
Proof.
  destruct l as [|x xs]; [done|]. intros _.
  exists (foldl Rmin x xs). split; [done|apply foldl_Rmin_spec].
Qed.

Lemma py_max_Ok (l : list R) : l ≠ [] → ∃ m, py_max l = Ok m ∧ is_max m l.
Proof.
  destruct l as [|x xs]; [done|]. intros _.
  exists (foldl Rmax x xs). split; [done|apply foldl_Rmax_spec].
Qed.

Lemma statistics_mean_Ok (l : list R) :
  l ≠ [] → statistics_mean l = Ok (rsum l / INR (length l)).
Proof. by destruct l. Qed.

Lemma is_min_all_pairs (embeddings : list embedding) (m : R) :
  is_min m (all_pairs embeddings) ↔ min_pairwise embeddings m.
Proof.
  unfold is_min, min_pairwise. rewrite elem_of_all_pairs.
  split; intros [H1 H2]; (split; [done|]); intros x Hx;
    apply H2; by apply elem_of_all_pairs.
Qed.

(** ** [create_voice_profile]: the consistency gate *)

(** The profile assembled once the gate is passed. *)
Lemma create_voice_profile_gate (D : nat) (uuid4 : string) (now : R)
    (embeddings : list embedding) (name : string) (indices : list Z) :
  (0 < D)%nat → same_dim D embeddings → (2 ≤ length embeddings)%nat →
  ∃ m, min_pairwise embeddings m ∧
    create_voice_profile uuid4 now embeddings name indices =
      if Rlt_dec m CONSISTENCY_THRESHOLD
      then Raise (ValueError_inconsistent m)
      else
        used ← mapM (py_index ENROLLMENT_PHRASES) indices;
        Ok {| user_id := uuid4;
              user_name := name;
              voice_embedding :=
                vdiv (np_mean_axis0 embeddings) (norm (np_mean_axis0 embeddings));
              phrase_embeddings := embeddings;
              phrase_indices := indices;
              phrases_used := used;
              consistency_score :=
                rsum (all_pairs embeddings) / INR (length (all_pairs embeddings));
              min_consistency := m;
              enrollment_timestamp := now;
              embedding_dim := length (np_mean_axis0 embeddings) |}.
Proof.
  intros HD Hdim HN.
  pose proof (all_pairs_nonempty _ HN) as Hne.
  destruct (py_min_Ok _ Hne) as (m & Hm & Hmin).
  exists m. split; [by apply is_min_all_pairs|].
  unfold create_voice_profile.
  rewrite (pairwise_similarities_all_pairs D) by done. simpl.
  rewrite statistics_mean_Ok by done. simpl. rewrite Hm. simpl.
  destruct (Rlt_dec m CONSISTENCY_THRESHOLD); [done|].
  by rewrite length_vdiv.
Qed.

Lemma min_pairwise_unique (embeddings : list embedding) (m m' : R) :
  min_pairwise embeddings m → min_pairwise embeddings m' → m = m'.
Proof.
  intros [H1 H2] [H1' H2']. apply Rle_antisym; [by apply H2|by apply H2'].
Qed.

Lemma py_index_valid (i : Z) :
  (0 ≤ i < Z.of_nat (length ENROLLMENT_PHRASES))%Z →
  ∃ s, py_index ENROLLMENT_PHRASES i = Ok s.
Proof.
  intros Hi. unfold py_index.
  rewrite (decide_True (P := (0 ≤ i)%Z)) by lia.
  rewrite decide_True by done.
  destruct (lookup_lt_is_Some_2 ENROLLMENT_PHRASES (Z.to_nat i)) as [s Hs]; [lia|].
  rewrite Hs. by exists s.
Qed.

Lemma phrases_used_valid (indices : list Z) :
  valid_indices indices →
  ∃ used, mapM (py_index ENROLLMENT_PHRASES) indices = Ok used.
Proof.
  induction 1 as [|i l Hi _ (used & IH)]; [by exists []|].
  destruct (py_index_valid i Hi) as [s Hs].
  exists (s :: used). simpl. rewrite Hs. simpl. by rewrite IH.
Qed.

Lemma phrases_used_raise (indices : list Z) (e : exn) :
  mapM (py_index ENROLLMENT_PHRASES) indices = Raise e → e = IndexError.
Proof.
  induction indices as [|i l IH]; [done|]. simpl.
  destruct (py_index ENROLLMENT_PHRASES i) as [s|e'] eqn:E; simpl.
  - destruct (mapM (py_index ENROLLMENT_PHRASES) l); simpl; [done|].
    intros [= <-]. by apply IH.
  - intros [= <-]. unfold py_index in E.
    repeat (case_decide || case_match); congruence.
Qed.

(** ** The centroid *)

Lemma foldl_vadd_length (D : nat) (x : embedding) (xs : list embedding) :
  length x = D → same_dim D xs → length (foldl vadd x xs) = D.
Proof.
  intros Hx Hxs. revert x Hx.
  induction Hxs as [|y ys Hy _ IH]; intros x Hx; [done|].
  simpl. apply IH. rewrite length_vadd; congruence.
Qed.

Lemma foldl_vadd_dot (D : nat) (x c : embedding) (xs : list embedding) :
  length x = D → same_dim D xs →
  dot (foldl vadd x xs) c = dot x c + rsum (map (λ y, dot y c) xs).
Proof.
  intros Hx Hxs. revert x Hx.
  induction Hxs as [|y ys Hy _ IH]; intros x Hx; simpl; [lra|].
  rewrite IH by (rewrite length_vadd; congruence).
  rewrite dot_vadd_l by congruence. lra.
Qed.

Lemma rsum_pos (l : list R) : l ≠ [] → Forall (λ x, 0 < x) l → 0 < rsum l.
Proof.
  intros Hne H. induction H as [|x l Hx Hl IH]; [done|].
  simpl. destruct l as [|y l]; [simpl; lra|].
  assert (0 < rsum (y :: l)) by by apply IH. lra.
Qed.

(** Samples that agree pairwise do not cancel: their sum is not zero. *)
Lemma sum_consistent_nonzero (D : nat) (x : embedding) (xs : list embedding) :
  length x = D → same_dim D xs → xs ≠ [] →
  (∀ y, y ∈ xs → 0 < cosine x y) →
  0 < dot (foldl vadd x xs) (foldl vadd x xs).
Proof.
  intros Hx Hxs Hne Hcos.
  assert (0 < dot (foldl vadd x xs) x) as Hpos.
  { rewrite (foldl_vadd_dot D) by done.
    pose proof (dot_self_nonneg x).
    assert (0 < rsum (map (λ y, dot y x) xs)); [|lra].
    apply rsum_pos; [by destruct xs|].
    apply Forall_fmap, Forall_forall. intros y Hy. simpl.
    rewrite dot_comm. by apply cosine_pos_dot, Hcos. }
  pose proof (dot_self_nonneg (foldl vadd x xs)) as Hge.
  destruct (Req_dec_T (dot (foldl vadd x xs) (foldl vadd x xs)) 0) as [E|E]; [|lra].
  rewrite (dot_self_zero _ x E) in Hpos. lra.
Qed.

Lemma mean_consistent_nonzero (D : nat) (embeddings : list embedding) (m : R) :
  same_dim D embeddings → (2 ≤ length embeddings)%nat →
  min_pairwise embeddings m → 0 < m →
  0 < dot (np_mean_axis0 embeddings) (np_mean_axis0 embeddings).
Proof.
  intros Hdim HN [_ Hmin] Hm.
  destruct embeddings as [|x xs]; [simpl in HN; lia|].
  apply Forall_cons in Hdim as [Hx Hxs].
  unfold np_mean_axis0. change (map ?f ?l) with (vdiv l (INR (length (x :: xs)))).
  rewrite dot_vdiv.
  assert (0 < dot (foldl vadd x xs) (foldl vadd x xs)) as HS.
  { apply (sum_consistent_nonzero D); [done|done| |].
    - destruct xs; [simpl in HN; lia|done].
    - intros y [j Hj]%list_elem_of_lookup.
      assert (m <= cosine x y); [|lra].
      apply Hmin. exists 0%nat, (S j), x, y. repeat split; [lia|done..]. }
  assert (0 < INR (length (x :: xs))) as HN' by (apply lt_0_INR; simpl; lia).
  apply Rdiv_lt_0_compat; nra.
Qed.

(** The centroid of an accepted batch has unit norm. *)
Lemma centroid_unit_norm (D : nat) (embeddings : list embedding) (m : R) :
  same_dim D embeddings → (2 ≤ length embeddings)%nat →
  min_pairwise embeddings m → ¬ m < CONSISTENCY_THRESHOLD →
  norm (vdiv (np_mean_axis0 embeddings) (norm (np_mean_axis0 embeddings))) = 1.
Proof.
  intros Hdim HN Hmin Hm. apply norm_vdiv_norm.
  apply (mean_consistent_nonzero D _ m); try done.
  unfold CONSISTENCY_THRESHOLD in Hm. lra.
Qed.

(** [np.mean(_, axis=0)] is the element-wise mean. *)
Lemma nth_vadd (a b : embedding) (k : nat) :
  length a = length b → nth k (vadd a b) 0 = nth k a 0 + nth k b 0.
Proof.
  revert b k. induction a as [|x a IH]; intros [|y b] k; try done.
  - intros _. destruct k; simpl; lra.
  - intros [= Hl]. destruct k as [|k]; [done|]. simpl. by apply IH.
Qed.

Lemma foldl_vadd_nth (D : nat) (x : embedding) (xs : list embedding) (k : nat) :
  length x = D → same_dim D xs →
  nth k (foldl vadd x xs) 0 = nth k x 0 + rsum (map (λ e, nth k e 0) xs).
Proof.
  intros Hx Hxs. revert x Hx.
  induction Hxs as [|y ys Hy _ IH]; intros x Hx; simpl; [lra|].
  rewrite IH by (rewrite length_vadd; congruence).
  rewrite nth_vadd by congruence. lra.
Qed.

Lemma np_mean_axis0_elementwise (D : nat) (X : list embedding) :
  X ≠ [] → same_dim D X → np_mean_axis0 X = elementwise_mean D X.
Proof.
  destruct X as [|x xs]; [done|]. intros _ [Hx Hxs]%Forall_cons.
  unfold np_mean_axis0, elementwise_mean.
  set (N := INR (length (x :: xs))).
  apply (nth_ext _ _ (0 / N) (rsum (map (λ e, nth 0 e 0) (x :: xs)) / N)).
  - rewrite !length_map, length_seq. by apply foldl_vadd_length.
  - intros k Hk. rewrite length_map, (foldl_vadd_length D) in Hk by done.
    rewrite (map_nth (λ s, s / N)).
    rewrite (map_nth (λ k, rsum (map (λ e, nth k e 0) (x :: xs)) / N)).
    rewrite seq_nth by done. simpl.
    by rewrite (foldl_vadd_nth D).
Qed.

Lemma dot_self_squares (v : embedding) : dot v v = rsum (map (λ y, y * y) v).
Proof. induction v as [|x v IH]; [done|]. rewrite dot_cons, IH. done. Qed.

Lemma renormalize_vdiv (v : embedding) : renormalize v = vdiv v (norm v).
Proof. unfold renormalize, vdiv, norm. by rewrite dot_self_squares. Qed.

(** ** Identical samples *)

Lemma dot_pos_nonempty (v : embedding) : 0 < dot v v → (0 < length v)%nat.
Proof. destruct v; [unfold dot; simpl; lra|simpl; lia]. Qed.

Lemma all_pairs_replicate (n : nat) (v : embedding) :
  0 < dot v v → ∃ k, all_pairs (replicate n v) = replicate k 1.
Proof.
  intros Hv. induction n as [|n [k IH]]; [by exists 0%nat|].
  exists (n + k)%nat. simpl. rewrite IH, fmap_replicate, cosine_self by done.
  by rewrite replicate_add.
Qed.

Lemma elementwise_mean_replicate (n : nat) (v : embedding) :
  (0 < n)%nat → elementwise_mean (length v) (replicate n v) = v.
Proof.
  intros Hn. unfold elementwise_mean.
  set (f := λ k, rsum (map (λ e, nth k e 0) (replicate n v))
                 / INR (length (replicate n v))).
  apply (nth_ext _ _ (f 0%nat) 0).
  - by rewrite length_map, length_seq.
  - intros k Hk. rewrite length_map, length_seq in Hk.
    rewrite (map_nth f), seq_nth by done. simpl. unfold f.
    rewrite fmap_replicate, rsum_replicate, length_replicate.
    field. apply not_0_INR. lia.
Qed.

Lemma same_dim_replicate (n : nat) (v : embedding) :
  same_dim (length v) (replicate n v).
Proof. apply Forall_replicate. done. Qed.

(** Enrolling [n] copies of one non-zero vector. *)
Lemma create_voice_profile_replicate (uuid4 : string) (now : R) (n : nat)
    (v : embedding) (name : string) (indices : list Z) (used : list string) :
  0 < dot v v → (2 ≤ n)%nat →
  mapM (py_index ENROLLMENT_PHRASES) indices = Ok used →
  create_voice_profile uuid4 now (replicate n v) name indices =
    Ok {| user_id := uuid4;
          user_name := name;
          voice_embedding := vdiv v (norm v);
          phrase_embeddings := replicate n v;
          phrase_indices := indices;
          phrases_used := used;
          consistency_score := 1;
          min_consistency := 1;
          enrollment_timestamp := now;
          embedding_dim := length v |}.
Proof.
  intros Hv Hn Hused.
  pose proof (dot_pos_nonempty v Hv) as HD.
  destruct (create_voice_profile_gate (length v) uuid4 now (replicate n v)
              name indices HD (same_dim_replicate n v)) as (m & Hmin & ->).
  { by rewrite length_replicate. }
  destruct (all_pairs_replicate n v Hv) as [k Hk].
  assert (k ≠ 0)%nat as Hk0.
  { intros ->. apply (all_pairs_nonempty (replicate n v)); [|done].
    by rewrite length_replicate. }
  assert (m = 1) as ->.
  { destruct Hmin as [Hin _]. apply elem_of_all_pairs in Hin.
    rewrite Hk in Hin. by apply elem_of_replicate in Hin as [? _]. }
  rewrite Hused. unfold CONSISTENCY_THRESHOLD.
  destruct (Rlt_dec 1 0.70); [lra|]. simpl.
  rewrite (np_mean_axis0_elementwise (length v)), elementwise_mean_replicate;
    [|lia|destruct n; [lia|done]|apply same_dim_replicate].
  rewrite Hk, rsum_replicate, length_replicate.
  do 2 f_equal. field. by apply not_0_INR.
Qed.

(** ** The store *)

Lemma length_append (s1 s2 : string) :
  String.length (s1 +:+ s2) = (String.length s1 + String.length s2)%nat.
Proof. induction s1 as [|c s1 IH]; simpl; [done|by rewrite IH]. Qed.

Lemma substring_append_skip (s1 s2 : string) (m : nat) :
  substring (String.length s1) m (s1 +:+ s2) = substring 0 m s2.
Proof. induction s1 as [|c s1 IH]; simpl; [done|by rewrite IH]. Qed.

Lemma endswith_profile_path (uid : string) :
  endswith (profile_path uid) ".json" = true.
Proof.
  unfold endswith, profile_path. rewrite length_append. simpl String.length.
  rewrite decide_True by lia.
  replace (String.length uid + 5 - 5)%nat with (String.length uid) by lia.
  rewrite substring_append_skip. done.
Qed.

Lemma elem_of_load_entries_profiles (entries : list (string * file)) (p : profile) :
  p ∈ (load_entries entries).1 ↔
  ∃ filename, (filename, Json p) ∈ entries ∧ endswith filename ".json" = true.
Proof.
  induction entries as [|[filename f] rest IH]; simpl.
  - split; [by intros ?%elem_of_nil|]. by intros (? & ?%elem_of_nil & _).
  - destruct (load_entries rest) as [profiles warned] eqn:E. simpl in IH.
    assert (p ∈ (if endswith filename ".json"
                 then match f with
                      | Json q => (q :: profiles, warned)
                      | Unreadable => (profiles, filename :: warned)
                      end
                 else (profiles, warned)).1
            ↔ (endswith filename ".json" = true ∧ f = Json p) ∨ p ∈ profiles) as ->.
    { destruct (endswith filename ".json"), f as [q|]; simpl;
        rewrite ?elem_of_cons; naive_solver. }
    rewrite IH. setoid_rewrite elem_of_cons. naive_solver.
Qed.

Lemma elem_of_load_entries_warned (entries : list (string * file)) (name : string) :
  name ∈ (load_entries entries).2 ↔
  (name, Unreadable) ∈ entries ∧ endswith name ".json" = true.
Proof.
  induction entries as [|[filename f] rest IH]; simpl.
  - split; [by intros ?%elem_of_nil|]. by intros [?%elem_of_nil _].
  - destruct (load_entries rest) as [profiles warned] eqn:E. simpl in IH.
    assert (name ∈ (if endswith filename ".json"
                    then match f with
                         | Json q => (q :: profiles, warned)
                         | Unreadable => (profiles, filename :: warned)
                         end
                    else (profiles, warned)).2
            ↔ (endswith filename ".json" = true ∧ f = Unreadable ∧ name = filename)
              ∨ name ∈ warned) as ->.
    { destruct (endswith filename ".json"), f as [q|]; simpl;
        rewrite ?elem_of_cons; naive_solver. }
    rewrite IH, elem_of_cons. naive_solver.
Qed.


(** A profile is listed exactly when a readable [.json] record holds it. *)
Lemma elem_of_load_all_profiles (st : store) (p : profile) :
  p ∈ (load_all_profiles st).1 ↔
  ∃ filename, endswith filename ".json" = true ∧ st !! filename = Some (Json p).
Proof.
  unfold load_all_profiles. rewrite elem_of_load_entries_profiles.
  setoid_rewrite elem_of_map_to_list. naive_solver.
Qed.

(** A warning is printed exactly for the unreadable [.json] records. *)
Lemma elem_of_load_all_warned (st : store) (name : string) :
  name ∈ (load_all_profiles st).2 ↔
  endswith name ".json" = true ∧ st !! name = Some Unreadable.
Proof.
  unfold load_all_profiles. rewrite elem_of_load_entries_warned.
  rewrite elem_of_map_to_list. naive_solver.
Qed.

Lemma name_taken_true (existing : list profile) (name : string) :
  name_taken existing name = true ↔
  ∃ p, p ∈ existing ∧ lower (user_name p) = lower name.
Proof.
  unfold name_taken. induction existing as [|q l IH]; simpl.
  - split; [done|]. by intros (? & ?%elem_of_nil & _).
  - rewrite orb_true_iff, IH, bool_decide_eq_true.
    setoid_rewrite elem_of_cons. naive_solver.
Qed.

Lemma name_taken_collides (st : store) (name : string) :
  name_taken (load_all_profiles st).1 name = true ↔ collides st name.
Proof.
  rewrite name_taken_true. unfold collides.
  setoid_rewrite elem_of_load_all_profiles. naive_solver.
Qed.

Lemma save_completes (p : profile) (st : store) :
  save_voice_profile WriteCompletes p st
  = (Ok (profile_path (user_id p)), <[profile_path (user_id p) := Json p]> st).
Proof.
  unfold save_voice_profile, json_dump, open_w. by rewrite insert_insert_eq.
Qed.

(** ** Sorting the scores *)

Lemma insert_desc_perm (e : score_entry) (l : list score_entry) :
  insert_desc e l ≡ₚ e :: l.
Proof.
  induction l as [|e' l IH]; simpl; [done|].
  destruct (Rge_dec (score e) (score e')); [done|].
  rewrite IH. apply Permutation_swap.
Qed.

Lemma sort_desc_perm (l : list score_entry) : sort_desc l ≡ₚ l.
Proof.
  induction l as [|e l IH]; simpl; [done|].
  by rewrite insert_desc_perm, IH.
Qed.

Lemma insert_desc_sorted (e : score_entry) (l : list score_entry) :
  descending l → descending (insert_desc e l).
Proof.
  unfold descending. induction 1 as [|e' l Hl IH Hall]; simpl.
  - by repeat constructor.
  - destruct (Rge_dec (score e) (score e')) as [Hge|Hlt].
    + constructor; [by constructor|].
      constructor; [lra|]. eapply Forall_impl; [exact Hall|].
      intros x Hx. simpl in Hx. lra.
    + constructor; [done|]. rewrite insert_desc_perm.
      constructor; [lra|done].
Qed.

Lemma sort_desc_sorted (l : list score_entry) : descending (sort_desc l).
Proof.
  induction l as [|e l IH]; simpl; [constructor|by apply insert_desc_sorted].
Qed.

(** ** Scoring one profile, and the loop over all of them *)

Lemma score_profile_Ok (D : nat) (probe : embedding) (p : profile) :
  (0 < D)%nat → length probe = D → well_formed D p →
  ∃ e, score_profile probe p = Ok e ∧ entry_of probe p e.
Proof.
  intros HD Hprobe (Hc & Hne & Hdim). unfold score_profile.
  rewrite (cosine_similarity_Ok D) by done. simpl.
  rewrite (mapM_res_Ok _ (cosine probe)); last first.
  { eapply Forall_impl; [exact Hdim|]. intros b Hb.
    by apply (cosine_similarity_Ok D). }
  simpl.
  destruct (py_max_Ok (map (cosine probe) (phrase_embeddings p))) as (mp & -> & Hmp).
  { by destruct (phrase_embeddings p). }
  simpl. eexists. split; [done|].
  repeat split; simpl. by exists mp.
Qed.

Lemma Rmax_gt (b s : R) : s > b → Rmax b s = s.
Proof. intros H. apply Rmax_right. lra. Qed.

Lemma Rmax_not_gt (b s : R) : ¬ s > b → Rmax b s = b.
Proof. intros H. apply Rmax_left. lra. Qed.


(** What the loop leaves in its three variables. *)
Lemma identify_loop_Ok (D : nat) (probe : embedding) (profiles : list profile)
    (best_match : option profile) (best_score : R) (all_scores : list score_entry) :
  (0 < D)%nat → length probe = D → Forall (well_formed D) profiles →
  ∃ best_match' best_score' entries,
    identify_loop probe profiles (best_match, best_score, all_scores)
      = Ok (best_match', best_score', all_scores ++ entries)
    ∧ Forall2 (entry_of probe) profiles entries
    ∧ best_score' = foldl Rmax best_score (map score entries)
    ∧ ((best_match' = best_match ∧ best_score' = best_score)
       ∨ (∃ p, p ∈ profiles ∧ best_match' = Some p
               ∧ is_score probe p best_score' ∧ best_score < best_score')).
Proof.
  intros HD Hprobe Hwf. revert best_match best_score all_scores.
  induction Hwf as [|p rest Hp _ IH]; intros bm bs acc.
  - exists bm, bs, []. rewrite app_nil_r. repeat split; [constructor|by left].
  - destruct (score_profile_Ok D probe p HD Hprobe Hp) as (e & He & Hentry).
    simpl. rewrite He. simpl.
    destruct (Rgt_dec (score e) bs) as [Hgt|Hle].
    + destruct (IH (Some p) (score e) (acc ++ [e])) as (bm' & bs' & es & -> & HF & Hbs & Hbm).
      exists bm', bs', (e :: es). rewrite <- app_assoc. simpl.
      rewrite Rmax_gt by done. repeat split; [by constructor|done|].
      right. destruct Hbm as [[-> ->]|(q & Hq & -> & Hs & Hlt)].
      * exists p. repeat split; [apply list_elem_of_here| |lra].
        by destruct Hentry as (_ & _ & ?).
      * exists q. repeat split; [by apply list_elem_of_further|done|lra].
    + destruct (IH bm bs (acc ++ [e])) as (bm' & bs' & es & -> & HF & Hbs & Hbm).
      exists bm', bs', (e :: es). rewrite <- app_assoc. simpl.
      rewrite Rmax_not_gt by done. repeat split; [by constructor|done|].
      destruct Hbm as [[-> ->]|(q & Hq & -> & Hs & Hlt)]; [by left|].
      right. exists q. repeat split; [by apply list_elem_of_further|done..].
Qed.

(** The outcome of [identify_profiles] on a non-empty list of well-formed
    profiles: one entry per profile, sorted; the returned score is the
    running maximum started at [0.0]. *)
Lemma identify_profiles_Ok (D : nat) (probe : embedding) (threshold : R)
    (profiles : list profile) :
  (0 < D)%nat → length probe = D → Forall (well_formed D) profiles →
  profiles ≠ [] →
  ∃ best_match best_score entries,
    identify_profiles probe threshold profiles
      = Ok (if Rge_dec best_score threshold then best_match else None,
            best_score, Scores (sort_desc entries))
    ∧ Forall2 (entry_of probe) profiles entries
    ∧ best_score = foldl Rmax 0 (map score entries)
    ∧ ((best_match = None ∧ best_score = 0)
       ∨ (∃ p, p ∈ profiles ∧ best_match = Some p
               ∧ is_score probe p best_score ∧ 0 < best_score)).
Proof.
  intros HD Hprobe Hwf Hne.
  destruct (identify_loop_Ok D probe profiles None 0 [] HD Hprobe Hwf)
    as (bm & bs & es & Hloop & HF & Hbs & Hbm).
  exists bm, bs, es. split; [|done].
  unfold identify_profiles. destruct profiles as [|p rest]; [done|].
  rewrite Hloop. simpl. by destruct (Rge_dec bs threshold).
Qed.

Lemma identify_profiles_empty (probe : embedding) (threshold : R) :
  identify_profiles probe threshold []
  = Ok (None, 0, Message "No profiles in registry").
Proof. done. Qed.

(** ** Concrete vectors *)

Lemma dot_e1 : dot e1 e1 = 1.
Proof. unfold dot, e1. simpl. lra. Qed.

Lemma norm_e1 : norm e1 = 1.
Proof. unfold norm. rewrite dot_e1. apply sqrt_1. Qed.

Lemma dot_twice_e1 : dot twice_e1 twice_e1 = 2 * 2.
Proof. unfold dot, twice_e1. simpl. lra. Qed.

Lemma norm_twice_e1 : norm twice_e1 = 2.
Proof. unfold norm. rewrite dot_twice_e1. apply sqrt_square. lra. Qed.

Lemma norm_minus_e1 : norm minus_e1 = 1.
Proof.
  unfold norm. replace (dot minus_e1 minus_e1) with 1; [apply sqrt_1|].
  unfold dot, minus_e1. simpl. lra.
Qed.

Lemma cosine_minus_e1 : cosine minus_e1 e1 = -1.
Proof.
  unfold cosine. rewrite norm_minus_e1, norm_e1.
  unfold dot, minus_e1, e1. simpl. lra.
Qed.

Lemma sample_phrases_used :
  mapM (py_index ENROLLMENT_PHRASES) sample_indices = Ok (take 5 ENROLLMENT_PHRASES).
Proof. reflexivity. Qed.

Lemma valid_sample_indices : valid_indices sample_indices.
Proof. unfold valid_indices, sample_indices. repeat constructor; simpl; lia. Qed.


(** ** Acceptance, read backwards *)

Lemma mapM_res_inv {A B} (f : A → res B) (l : list A) (k : list B) :
  mapM f l = Ok k → Forall (λ x, is_ok (f x)) l.
Proof.
  revert k. induction l as [|x l IH]; intros k; [constructor|].
  simpl. destruct (f x) as [y|] eqn:E; simpl; [|done].
  destruct (mapM f l) as [k'|] eqn:E'; simpl; [|done].
  intros _. constructor; [by exists y|by apply (IH k')].
Qed.

Lemma cosine_similarity_inv (a b : embedding) :
  is_ok (cosine_similarity a b) → length b = length a ∧ (0 < length a)%nat.
Proof.
  unfold cosine_similarity. intros [x Hx].
  destruct (decide _) as [[? ?]|]; [done|discriminate].
Qed.

(** A batch that [create_voice_profile] accepts has at least two samples,
    all of one positive dimension. *)
Lemma create_voice_profile_Ok_inv (uuid4 : string) (now : R)
    (embeddings : list embedding) (name : string) (indices : list Z) (p : profile) :
  create_voice_profile uuid4 now embeddings name indices = Ok p →
  ∃ D, (0 < D)%nat ∧ same_dim D embeddings ∧ (2 ≤ length embeddings)%nat.
Proof.
  unfold create_voice_profile. intros H.
  apply bind_Ok in H as (sims & Hsims & H).
  apply bind_Ok in H as (avg & Havg & _).
  destruct embeddings as [|a [|b rest]].
  - injection Hsims as <-. discriminate.
  - injection Hsims as <-. discriminate.
  - simpl in Hsims. apply bind_Ok in Hsims as (row & Hrow & _).
    apply (mapM_res_inv _ (b :: rest)) in Hrow.
    exists (length a). split; [|split; [|simpl; lia]].
    + apply Forall_cons in Hrow as [Hb _].
      by apply cosine_similarity_inv in Hb as [_ ?].
    + constructor; [done|]. eapply Forall_impl; [exact Hrow|].
      intros c Hc. by apply cosine_similarity_inv in Hc as [? _].
Qed.

Lemma create_voice_profile_fields (uuid4 : string) (now : R)
    (embeddings : list embedding) (name : string) (indices : list Z) (p : profile) :
  create_voice_profile uuid4 now embeddings name indices = Ok p →
  user_id p = uuid4 ∧ user_name p = name ∧ phrase_embeddings p = embeddings
  ∧ phrase_indices p = indices.
Proof.
  unfold create_voice_profile. intros H.
  apply bind_Ok in H as (sims & _ & H).
  apply bind_Ok in H as (avg & _ & H).
  apply bind_Ok in H as (m & _ & H).
  destruct (Rlt_dec m CONSISTENCY_THRESHOLD); [done|].
  apply bind_Ok in H as (used & _ & H).
  by injection H as <-.
Qed.

(** ** [register_voice] *)

Lemma invalid_indices_nil (l : list Z) :
  valid_indices l →
  filter (λ i : Z, (i < 0)%Z ∨ (Z.of_nat (length ENROLLMENT_PHRASES) ≤ i)%Z) l = [].
Proof.
  induction 1 as [|i l Hi _ IH]; [done|].
  rewrite filter_cons, decide_False by lia. done.
Qed.

Section HandlerProperties.

Context {audio : Type}.
Variable py_int_strip : string → option Z.
Variable wavlm_mean_pool : audio → res embedding.

Lemma build_profile_create (uuid4 : string) (now : R) (name : string)
    (l : list Z) (audios : list audio) (embeddings : list embedding) :
  mapM (extract_voice_embedding wavlm_mean_pool) audios = Ok embeddings →
  build_profile wavlm_mean_pool uuid4 now name l audios
  = create_voice_profile uuid4 now embeddings name l.
Proof. intros H. unfold build_profile. by rewrite H. Qed.

Lemma build_profile_user_id (uuid4 : string) (now : R) (name : string)
    (l : list Z) (audios : list audio) (p : profile) :
  build_profile wavlm_mean_pool uuid4 now name l audios = Ok p →
  user_id p = uuid4.
Proof.
  unfold build_profile. intros H. apply bind_Ok in H as (embs & _ & H).
  by apply create_voice_profile_fields in H as (? & _).
Qed.

(** Past validation, the handler is the name check followed by the [try]
    block. *)
Lemma register_voice_validated (uuid4 : string) (now : R) (io : write_outcome)
    (name indices : string) (audios : list audio) (st : store) (l : list Z) :
  passes_validation py_int_strip indices (length audios) l →
  register_voice py_int_strip wavlm_mean_pool uuid4 now io name indices audios st
  = if name_taken (load_all_profiles st).1 name
    then (JSONError 400 (AlreadyRegistered name), st)
    else register_try wavlm_mean_pool uuid4 now io name l audios st.
Proof.
  intros (Hparse & Hlen & Hmin & Hvalid). unfold register_voice.
  rewrite Hparse, decide_False by (intros ?; done).
  rewrite decide_False by lia.
  rewrite invalid_indices_nil by done.
  by rewrite decide_False by (intros ?; done).
Qed.

(** The three ways the [try] block can end. *)
Lemma register_try_cases (uuid4 : string) (now : R) (io : write_outcome)
    (name : string) (l : list Z) (audios : list audio) (st : store) :
  (∃ e, build_profile wavlm_mean_pool uuid4 now name l audios = Raise e
        ∧ register_try wavlm_mean_pool uuid4 now io name l audios st
          = (JSONError 500 (RegistrationFailed e), st))
  ∨ (∃ p, build_profile wavlm_mean_pool uuid4 now name l audios = Ok p
          ∧ register_try wavlm_mean_pool uuid4 now io name l audios st
            = match io with
              | WriteCompletes =>
                  (Success (summary p), <[profile_path uuid4 := Json p]> st)
              | OpenRaises => (JSONError 500 (RegistrationFailed OSError), st)
              | DumpRaises =>
                  (JSONError 500 (RegistrationFailed OSError),
                   <[profile_path uuid4 := Unreadable]> st)
              end).
Proof.
  unfold register_try.
  destruct (build_profile wavlm_mean_pool uuid4 now name l audios) as [p|e] eqn:E.
  - right. exists p. split; [done|].
    rewrite <- (build_profile_user_id _ _ _ _ _ _ E).
    destruct io; [by rewrite save_completes|done..].
  - left. by exists e.
Qed.

(** Every way [register_voice] can end: a 400 before the [try] block, or
    one of the endings of the block. *)
Lemma register_voice_cases (uuid4 : string) (now : R) (io : write_outcome)
    (name indices : string) (audios : list audio) (st : store) :
  (∃ err, register_voice py_int_strip wavlm_mean_pool uuid4 now io name
            indices audios st = (JSONError 400 err, st))
  ∨ (∃ l, register_voice py_int_strip wavlm_mean_pool uuid4 now io name
            indices audios st
          = register_try wavlm_mean_pool uuid4 now io name l audios st).
Proof.
  unfold register_voice.
  destruct (mapM py_int_strip (split_comma indices)) as [l|]; [|by left; eexists].
  repeat (case_decide; [by left; eexists|]).
  destruct (name_taken _ _); [by left; eexists|].
  right. by exists l.
Qed.

End HandlerProperties.


(** ** The extractor's normalisation *)

Lemma torch_normalize_unit (v : embedding) : norm v = 1 → torch_normalize v = v.
Proof.
  intros Hv. unfold torch_normalize. rewrite Hv, Rmax_left by lra. apply vdiv_1.
Qed.

(** Unless the pooled hidden state is shorter than the clamp, the
    extractor hands out unit vectors. *)
Lemma torch_normalize_norm (v : embedding) :
  1e-12 <= norm v → norm (torch_normalize v) = 1.
Proof.
  intros Hv. unfold torch_normalize. rewrite Rmax_left by done.
  apply norm_vdiv_norm. rewrite <- norm_sqr. nra.
Qed.

Lemma extract_pooled_unit (n : nat) (v : embedding) :
  norm v = 1 →
  mapM (extract_voice_embedding pooled) (replicate n v) = Ok (replicate n v).
Proof.
  intros Hv. apply mapM_res_replicate.
  unfold extract_voice_embedding, pooled. simpl. by rewrite torch_normalize_unit.
Qed.

(** * The claims *)

(** C1. For a batch of N >= 2 embeddings of one dimension, with [m] the
    minimum of the similarities of its unordered pairs (there are
    N·(N−1)/2 of them), [create_voice_profile] raises the
    inconsistent-samples error exactly when [m < 0.70]; an enrollment
    request that reaches this check then ends in that error with the store
    as it was, and no call of [register_voice] that ends in that error
    changes the store. *)
Theorem inconsistent_samples_rejected {audio : Type}
    (py_int_strip : string → option Z) (wavlm_mean_pool : audio → res embedding)
    (D : nat) (uuid4 : string) (now : R) (embeddings : list embedding)
    (name : string) (l : list Z) :
  (0 < D)%nat → same_dim D embeddings → (2 ≤ length embeddings)%nat →
  ∃ m, min_pairwise embeddings m
    ∧ pairwise_similarities embeddings = Ok (all_pairs embeddings)
    ∧ length (all_pairs embeddings)
      = (length embeddings * (length embeddings - 1) / 2)%nat
    ∧ ((∃ m', create_voice_profile uuid4 now embeddings name l
              = Raise (ValueError_inconsistent m')) ↔ m < 0.70)
    ∧ (m < 0.70 → create_voice_profile uuid4 now embeddings name l
                  = Raise (ValueError_inconsistent m))
    ∧ (∀ io indices audios (st : store),
         passes_validation py_int_strip indices (length audios) l →
         ¬ collides st name →
         mapM (extract_voice_embedding wavlm_mean_pool) audios = Ok embeddings →
         m < 0.70 →
         register_voice py_int_strip wavlm_mean_pool uuid4 now io name indices
           audios st
         = (JSONError 500 (RegistrationFailed (ValueError_inconsistent m)), st))
    ∧ (∀ uuid4' now' io name' indices audios (st st' : store) m',
         register_voice py_int_strip wavlm_mean_pool uuid4' now' io name' indices
           audios st
         = (JSONError 500 (RegistrationFailed (ValueError_inconsistent m')), st') →
         st' = st).
Proof.
  intros HD Hdim HN.
  destruct (create_voice_profile_gate D uuid4 now embeddings name l HD Hdim HN)
    as (m & Hmin & Hcreate).
  exists m. split; [done|].
  split; [by apply (pairwise_similarities_all_pairs D)|].
  split; [apply length_all_pairs|].
  assert (m < 0.70 → create_voice_profile uuid4 now embeddings name l
                     = Raise (ValueError_inconsistent m)) as Hfail.
  { intros Hm. rewrite Hcreate. unfold CONSISTENCY_THRESHOLD.
    by destruct (Rlt_dec m 0.70). }
  split; [|split; [done|split]].
  - split; [|intros Hm; exists m; by apply Hfail].
    intros [m' Hm']. rewrite Hcreate in Hm'. unfold CONSISTENCY_THRESHOLD in Hm'.
    destruct (Rlt_dec m 0.70); [done|].
    destruct (mapM (py_index ENROLLMENT_PHRASES) l) as [used|e] eqn:E; [done|].
    apply phrases_used_raise in E as ->. done.
  - intros io indices audios st Hvalid Hfree Hembs Hm.
    rewrite (register_voice_validated _ _ _ _ _ _ _ _ _ l) by done.
    destruct (name_taken _ _) eqn:Htaken.
    { by apply name_taken_collides in Htaken. }
    unfold register_try.
    by rewrite (build_profile_create _ _ _ _ _ _ embeddings), Hfail.
  - intros uuid4' now' io name' indices audios st st' m' Hresp.
    destruct (register_voice_cases py_int_strip wavlm_mean_pool uuid4' now' io
                name' indices audios st) as [[err Herr]|[l' Hl']].
    { rewrite Herr in Hresp. by injection Hresp. }
    rewrite Hl' in Hresp.
    destruct (register_try_cases wavlm_mean_pool uuid4' now' io name' l' audios st)
      as [(e & _ & He)|(p & _ & Hp)].
    + rewrite He in Hresp. by injection Hresp.
    + rewrite Hp in Hresp. destruct io; by injection Hresp.
Qed.

(** One outlier among five samples: a batch the theorem applies to. *)
Lemma inconsistent_samples_rejected_witness :
  ∃ m, min_pairwise [e1; e1; e1; e1; e2] m
    ∧ ((∃ m', create_voice_profile "u1" 0 [e1; e1; e1; e1; e2] "bob" sample_indices
              = Raise (ValueError_inconsistent m')) ↔ m < 0.70).
Proof.
  destruct (inconsistent_samples_rejected int_of_digit pooled 2 "u1" 0
              [e1; e1; e1; e1; e2] "bob" sample_indices)
    as (m & Hmin & _ & _ & Hiff & _).
  - lia.
  - unfold same_dim. repeat constructor.
  - simpl. lia.
  - exists m. split; assumption.
Defined.

Lemma Forall_eq_replicate {A} (v : A) (l : list A) :
  Forall (λ e, e = v) l → l = replicate (length l) v.
Proof. induction 1 as [|e l -> _ IH]; simpl; [done|by rewrite <- IH]. Qed.

Lemma mapM_res_Forall2 {A B} (f : A → res B) (l : list A) (k : list B) :
  mapM f l = Ok k → Forall2 (λ x y, f x = Ok y) l k.
Proof.
  revert k. induction l as [|x l IH]; intros k; simpl.
  - intros [= <-]. constructor.
  - destruct (f x) as [y|] eqn:E; simpl; [|done].
    destruct (mapM f l) as [k'|] eqn:E'; simpl; [|done].
    intros [= <-]. constructor; [done|by apply IH].
Qed.

(** What an accepted batch is turned into. *)
Lemma create_voice_profile_accepted (uuid4 : string) (now : R)
    (embeddings : list embedding) (name : string) (l : list Z) (p : profile) :
  create_voice_profile uuid4 now embeddings name l = Ok p →
  ∃ D, (0 < D)%nat ∧ same_dim D embeddings ∧ (2 ≤ length embeddings)%nat
    ∧ min_pairwise embeddings (min_consistency p)
    ∧ ¬ min_consistency p < CONSISTENCY_THRESHOLD
    ∧ voice_embedding p
      = vdiv (np_mean_axis0 embeddings) (norm (np_mean_axis0 embeddings))
    ∧ phrase_embeddings p = embeddings.
Proof.
  intros H.
  destruct (create_voice_profile_Ok_inv _ _ _ _ _ _ H) as (D & HD & Hdim & HN).
  exists D. do 3 (split; [done|]).
  destruct (create_voice_profile_gate D uuid4 now embeddings name l HD Hdim HN)
    as (m & Hmin & Hcreate).
  rewrite Hcreate in H. destruct (Rlt_dec m CONSISTENCY_THRESHOLD); [done|].
  apply bind_Ok in H as (used & _ & H). by injection H as <-.
Qed.

(** C4. A batch of N >= 2 embeddings that passes the consistency check is
    given a centroid that is the element-wise mean of the batch
    re-normalised to unit length, and that centroid has unit norm.  When all
    inputs are one and the same unit vector, creation succeeds with both
    consistency figures equal to 1 and that vector as centroid. *)
Theorem centroid_is_normalized_mean (D : nat) (uuid4 : string) (now : R)
    (embeddings : list embedding) (name : string) (l : list Z) :
  (0 < D)%nat → same_dim D embeddings → (2 ≤ length embeddings)%nat →
  valid_indices l →
  (∀ m, min_pairwise embeddings m → ¬ m < 0.70 →
     ∃ p, create_voice_profile uuid4 now embeddings name l = Ok p
       ∧ voice_embedding p = renormalize (elementwise_mean D embeddings)
       ∧ norm (voice_embedding p) = 1
       ∧ length (voice_embedding p) = D)
  ∧ (∀ v, norm v = 1 → Forall (λ e, e = v) embeddings →
       ∃ p, create_voice_profile uuid4 now embeddings name l = Ok p
         ∧ min_consistency p = 1 ∧ consistency_score p = 1
         ∧ voice_embedding p = v).
Proof.
  intros HD Hdim HN Hvalid.
  destruct (phrases_used_valid l Hvalid) as [used Hused]. split.
  - intros m Hmin Hm.
    destruct (create_voice_profile_gate D uuid4 now embeddings name l HD Hdim HN)
      as (m0 & Hmin0 & Hcreate).
    rewrite (min_pairwise_unique _ _ _ Hmin0 Hmin) in Hcreate.
    unfold CONSISTENCY_THRESHOLD in Hcreate.
    destruct (Rlt_dec m 0.70); [done|]. rewrite Hused in Hcreate. simpl in Hcreate.
    eexists. split; [exact Hcreate|]. simpl.
    assert (embeddings ≠ []) as Hne by (destruct embeddings; [simpl in HN; lia|done]).
    split; [|split].
    + by rewrite renormalize_vdiv, (np_mean_axis0_elementwise D).
    + by apply (centroid_unit_norm D _ m).
    + rewrite length_vdiv, (np_mean_axis0_elementwise D) by done.
      unfold elementwise_mean. by rewrite length_map, length_seq.
  - intros v Hv Hall. apply Forall_eq_replicate in Hall.
    assert (0 < dot v v) as Hpos by (rewrite <- norm_sqr, Hv; lra).
    rewrite Hall.
    rewrite (create_voice_profile_replicate _ _ _ _ _ _ used Hpos HN Hused).
    eexists. split; [done|]. simpl. rewrite Hv. by rewrite vdiv_1.
Qed.

(** Five copies of the first basis vector. *)
Lemma centroid_is_normalized_mean_witness :
  ∃ p, create_voice_profile "u1" 0 (replicate 5 e1) "bob" sample_indices = Ok p
    ∧ min_consistency p = 1 ∧ consistency_score p = 1 ∧ voice_embedding p = e1.
Proof.
  refine (proj2 (centroid_is_normalized_mean 2 "u1" 0 (replicate 5 e1) "bob"
                   sample_indices _ _ _ _) e1 norm_e1 _).
  - lia.
  - apply (same_dim_replicate 5 e1).
  - simpl. lia.
  - exact valid_sample_indices.
  - by apply Forall_replicate.
Defined.

(** C7, as stated, fails: phrase embeddings are stored as they come.  Five
    copies of a vector of length 2 are accepted and stored with norm 2. *)
Lemma unit_norm_violated :
  ∃ p, create_voice_profile "u1" 0 (replicate 5 twice_e1) "bob" sample_indices = Ok p
    ∧ ¬ unit_norm_profile p.
Proof.
  eexists. split.
  - apply (create_voice_profile_replicate _ _ 5 twice_e1 _ _
             (take 5 ENROLLMENT_PHRASES));
      [rewrite dot_twice_e1; lra|lia|exact sample_phrases_used].
  - intros [_ Hall]. simpl in Hall.
    apply Forall_cons in Hall as [H2 _]. rewrite norm_twice_e1 in H2. lra.
Qed.

(** C7, amended. For every accepted batch the stored centroid has unit
    norm and the stored phrase embeddings are the inputs themselves, so
    the whole profile is unit-norm exactly when the inputs were; a profile
    persisted by [register_voice] is unit-norm whenever the pooled hidden
    state of every recording has norm at least 1e-12, because the
    extractor normalises. *)
Theorem stored_vectors_norm {audio : Type}
    (py_int_strip : string → option Z) (wavlm_mean_pool : audio → res embedding)
    (uuid4 : string) (now : R) (embeddings : list embedding) (name : string)
    (l : list Z) (p : profile) :
  create_voice_profile uuid4 now embeddings name l = Ok p →
  norm (voice_embedding p) = 1
  ∧ phrase_embeddings p = embeddings
  ∧ (unit_norm_profile p ↔ Forall (λ e, norm e = 1) embeddings)
  ∧ (∀ audios,
       mapM (extract_voice_embedding wavlm_mean_pool) audios = Ok embeddings →
       Forall (λ a, ∃ h, wavlm_mean_pool a = Ok h ∧ 1e-12 <= norm h) audios →
       unit_norm_profile p).
Proof.
  intros H.
  destruct (create_voice_profile_accepted _ _ _ _ _ _ H)
    as (D & HD & Hdim & HN & Hmin & Hm & Hc & Hp).
  assert (norm (voice_embedding p) = 1) as Hunit.
  { rewrite Hc. by apply (centroid_unit_norm D _ (min_consistency p)). }
  split; [done|]. split; [done|]. split.
  - unfold unit_norm_profile. rewrite Hp. naive_solver.
  - intros audios Hembs Hpooled. split; [done|]. rewrite Hp.
    apply mapM_res_Forall2 in Hembs. clear -Hembs Hpooled.
    induction Hembs as [|a e audios embs Hae _ IH]; [constructor|].
    apply Forall_cons in Hpooled as [(h & Hh & Hnorm) Hrest].
    constructor; [|by apply IH].
    unfold extract_voice_embedding in Hae. rewrite Hh in Hae.
    injection Hae as <-. by apply torch_normalize_norm.
Qed.

Lemma stored_vectors_norm_witness :
  unit_norm_profile (sample_profile "u1" "bob" e1).
Proof.
  refine (proj2 (proj2 (proj2 (stored_vectors_norm int_of_digit pooled "u1" 0
            (replicate 5 e1) "bob" sample_indices (sample_profile "u1" "bob" e1) _)))
          (replicate 5 e1) _ _).
  - rewrite (create_voice_profile_replicate _ _ 5 e1 _ _ _
               ltac:(rewrite dot_e1; lra) ltac:(lia) sample_phrases_used).
    unfold sample_profile. by rewrite norm_e1, vdiv_1.
  - apply extract_pooled_unit, norm_e1.
  - apply Forall_replicate. exists e1. split; [done|]. rewrite norm_e1. lra.
Defined.

(** ** Sample registrations *)

Lemma passes_validation_sample (n : nat) :
  n = 5%nat → passes_validation int_of_digit sample_form n sample_indices.
Proof.
  intros ->. split; [reflexivity|]. split; [reflexivity|].
  split; [unfold REQUIRED_PHRASES; lia|exact valid_sample_indices].
Qed.

Lemma build_sample_profile (uid name : string) :
  build_profile pooled uid 0 name sample_indices (replicate 5 e1)
  = Ok (sample_profile uid name e1).
Proof.
  rewrite (build_profile_create _ _ _ _ _ _ (replicate 5 e1))
    by apply extract_pooled_unit, norm_e1.
  rewrite (create_voice_profile_replicate _ _ 5 e1 _ _ _
             ltac:(rewrite dot_e1; lra) ltac:(lia) sample_phrases_used).
  unfold sample_profile. by rewrite norm_e1, vdiv_1.
Qed.

Lemma load_all_profiles_empty : load_all_profiles ∅ = ([], []).
Proof. unfold load_all_profiles. by rewrite map_to_list_empty. Qed.

Lemma load_all_profiles_singleton (uid : string) (f : file) :
  load_all_profiles {[ profile_path uid := f ]}
  = match f with
    | Json p => ([p], [])
    | Unreadable => ([], [profile_path uid])
    end.
Proof.
  unfold load_all_profiles. rewrite map_to_list_singleton. simpl.
  rewrite endswith_profile_path. by destruct f.
Qed.



(** C6, as stated, fails: a dump cut short after [open] leaves an
    unreadable record behind.  The store is then neither the old one nor the
    old one with a complete profile; listing warns about the record and
    [delete_voice] reports a failure for the identifier. *)
Lemma write_not_atomic :
  register_voice int_of_digit pooled "u1" 0 DumpRaises "bob" sample_form
    (replicate 5 e1) ∅
  = (JSONError 500 (RegistrationFailed OSError), {[ profile_path "u1" := Unreadable ]})
  ∧ ¬ all_or_nothing ∅ ({[ profile_path "u1" := Unreadable ]} : store)
  ∧ (load_all_profiles {[ profile_path "u1" := Unreadable ]}).2 = [profile_path "u1"]
  ∧ (delete_voice "u1" {[ profile_path "u1" := Unreadable ]}).1
    = JSONError 500 (DeleteFailed JSONDecodeError).
Proof.
  split; [|split; [|split]].
  - rewrite (register_voice_validated _ _ _ _ _ _ _ _ _ sample_indices)
      by by apply passes_validation_sample.
    rewrite load_all_profiles_empty. simpl.
    unfold register_try. rewrite build_sample_profile. simpl.
    unfold open_w. by rewrite insert_empty.
  - intros [Heq|[p Heq]].
    + apply (f_equal (λ m : store, m !! profile_path "u1")) in Heq.
      by rewrite lookup_singleton_eq, lookup_empty in Heq.
    + apply (f_equal (λ m : store, m !! profile_path "u1")) in Heq.
      rewrite lookup_singleton_eq, lookup_insert in Heq.
      case_decide; [done|]. by rewrite lookup_empty in Heq.
  - by rewrite load_all_profiles_singleton.
  - unfold delete_voice. by rewrite lookup_singleton_eq.
Qed.

(** C6, amended. Every call of [register_voice] ends in one of three ways:
    a failure with the store as it was; success with the complete profile
    stored under its own path; or, only when the dump itself is cut short,
    a failure with an unreadable record left at that path.  So the store
    is all-or-nothing whenever the dump is not cut short, and a success
    always shows the complete profile. *)
Theorem registration_store_effect {audio : Type}
    (py_int_strip : string → option Z) (wavlm_mean_pool : audio → res embedding)
    (uuid4 : string) (now : R) (io : write_outcome) (name indices : string)
    (audios : list audio) (st : store) :
  let r := register_voice py_int_strip wavlm_mean_pool uuid4 now io name indices
             audios st in
  ((∃ status err, r = (JSONError status err, st))
   ∨ (∃ p, io = WriteCompletes ∧ user_id p = uuid4
           ∧ r = (Success (summary p), <[profile_path uuid4 := Json p]> st))
   ∨ (io = DumpRaises
      ∧ r = (JSONError 500 (RegistrationFailed OSError),
             <[profile_path uuid4 := Unreadable]> st)))
  ∧ (io ≠ DumpRaises → all_or_nothing st r.2)
  ∧ (∀ b, r.1 = Success b →
       ∃ p, b = summary p ∧ r.2 !! profile_path (user_id p) = Some (Json p)).
Proof.
  intros r.
  assert ((∃ status err, r = (JSONError status err, st))
          ∨ (∃ p, io = WriteCompletes ∧ user_id p = uuid4
                  ∧ r = (Success (summary p), <[profile_path uuid4 := Json p]> st))
          ∨ (io = DumpRaises
             ∧ r = (JSONError 500 (RegistrationFailed OSError),
                    <[profile_path uuid4 := Unreadable]> st))) as Hcases.
  { subst r.
    destruct (register_voice_cases py_int_strip wavlm_mean_pool uuid4 now io name
                indices audios st) as [[err ->]|[l ->]]; [left; eauto|].
    destruct (register_try_cases wavlm_mean_pool uuid4 now io name l audios st)
      as [(e & _ & ->)|(p & Hp & ->)]; [left; eauto|].
    apply build_profile_user_id in Hp.
    destruct io; [right; left; eauto|left; eauto|right; right; eauto]. }
  split; [done|]. split.
  - intros Hio. destruct Hcases as [(? & ? & ->)|[(p & _ & Hid & ->)|[? _]]];
      [by left| |done].
    right. exists p. simpl. by rewrite Hid.
  - intros b Hb.
    destruct Hcases as [(? & ? & Hr)|[(p & _ & Hid & Hr)|[_ Hr]]];
      rewrite Hr in Hb |- *; simpl in *; try done.
    injection Hb as <-. exists p. split; [done|].
    rewrite Hid. apply lookup_insert_eq.
Qed.

(** ** Deleting *)

(** C8. Deleting an identifier that has no record answers 404 and leaves
    the store alone.  Deleting an existing profile removes its record and
    nothing else; after that, [get] on the identifier is [NotFound] and a
    second delete answers 404. *)
Theorem delete_then_not_found (uid : string) (st : store) :
  (st !! profile_path uid = None →
     delete_voice uid st = (JSONError 404 (ProfileNotFound uid), st)
     ∧ get uid st = NotFound)
  ∧ (∀ p, st !! profile_path uid = Some (Json p) →
       let r := delete_voice uid st in
       r = (Success (user_name p), delete (profile_path uid) st)
       ∧ r.2 !! profile_path uid = None
       ∧ (∀ k, k ≠ profile_path uid → r.2 !! k = st !! k)
       ∧ get uid r.2 = NotFound
       ∧ delete_voice uid r.2 = (JSONError 404 (ProfileNotFound uid), r.2)).
Proof.
  split.
  - intros Hnone. unfold delete_voice, get. by rewrite Hnone.
  - intros p Hp r.
    assert (r = (Success (user_name p), delete (profile_path uid) st)) as ->.
    { subst r. unfold delete_voice. by rewrite Hp. }
    simpl. split; [done|]. split; [apply lookup_delete_eq|].
    split; [by intros k Hk; apply lookup_delete_ne|].
    unfold get, delete_voice. rewrite lookup_delete_eq. done.
Qed.

(** C10. When the record of an identifier exists but does not parse,
    [delete_voice] answers 500, not 404, and the record stays where it
    is: the handler reads and parses the record before it removes it. *)
Theorem delete_unreadable_record (uid : string) (st : store) :
  st !! profile_path uid = Some Unreadable →
  delete_voice uid st = (JSONError 500 (DeleteFailed JSONDecodeError), st)
  ∧ (delete_voice uid st).1 ≠ JSONError 404 (ProfileNotFound uid)
  ∧ (delete_voice uid st).2 !! profile_path uid = Some Unreadable.
Proof.
  intros H. unfold delete_voice. rewrite H. simpl.
  split; [done|]. split; [discriminate|done].
Qed.

Lemma delete_unreadable_record_witness :
  delete_voice "u1" {[ profile_path "u1" := Unreadable ]}
  = (JSONError 500 (DeleteFailed JSONDecodeError),
     {[ profile_path "u1" := Unreadable ]}).
Proof.
  refine (proj1 (delete_unreadable_record "u1" {[ profile_path "u1" := Unreadable ]} _)).
  apply lookup_singleton_eq.
Defined.

(** ** Listing and identification *)

Lemma load_entries_omap (entries : list (string * file)) :
  (load_entries entries).1 = omap readable_profile entries.
Proof.
  induction entries as [|[filename f] rest IH]; [done|].
  simpl. destruct (load_entries rest) as [profiles warned]. simpl in IH.
  unfold readable_profile at 1. simpl.
  destruct (endswith filename ".json"), f; simpl; by rewrite IH.
Qed.


(** C2. Each listed profile gets one entry whose score is the larger of
    the probe's cosine with the centroid and the largest of its cosines
    with the phrase embeddings; the ranking returned holds exactly these
    entries, in descending order of score.  (With nothing listed, the
    third component is the no-profiles message.) *)
Theorem ranking_sorted_by_score (D : nat) (probe : embedding) (threshold : R)
    (st : store) :
  (0 < D)%nat → length probe = D →
  Forall (well_formed D) (load_all_profiles st).1 →
  ∃ m s r, identify_speaker probe threshold st = Ok (m, s, r)
    ∧ (((load_all_profiles st).1 = [] ∧ r = Message "No profiles in registry")
       ∨ (∃ ranked entries, r = Scores ranked
            ∧ Forall2 (entry_of probe) (load_all_profiles st).1 entries
            ∧ ranked ≡ₚ entries ∧ descending ranked)).
Proof.
  intros HD Hprobe Hwf. unfold identify_speaker.
  destruct (decide ((load_all_profiles st).1 = [])) as [Hnil|Hne].
  - rewrite Hnil. do 3 eexists. split; [apply identify_profiles_empty|by left].
  - destruct (identify_profiles_Ok D probe threshold _ HD Hprobe Hwf Hne)
      as (bm & bs & es & -> & HF & _).
    do 3 eexists. split; [done|]. right.
    exists (sort_desc es), es.
    split; [done|]. split; [done|].
    split; [apply sort_desc_perm|apply sort_desc_sorted].
Qed.

Lemma well_formed_sample (uid name : string) :
  well_formed 2 (sample_profile uid name e1).
Proof. split; [done|]. split; [done|]. by apply Forall_replicate. Qed.

Lemma ranking_sorted_by_score_witness :
  ∃ m s r, identify_speaker e1 IDENTIFICATION_THRESHOLD alice_store = Ok (m, s, r)
    ∧ (((load_all_profiles alice_store).1 = [] ∧ r = Message "No profiles in registry")
       ∨ (∃ ranked entries, r = Scores ranked
            ∧ Forall2 (entry_of e1) (load_all_profiles alice_store).1 entries
            ∧ ranked ≡ₚ entries ∧ descending ranked)).
Proof.
  apply (ranking_sorted_by_score 2 e1 IDENTIFICATION_THRESHOLD alice_store).
  - lia.
  - reflexivity.
  - unfold alice_store. rewrite load_all_profiles_singleton. simpl.
    constructor; [apply well_formed_sample|constructor].
Defined.


(** ** The decision *)

Lemma foldl_Rmax_replicate (n : nat) (x : R) : foldl Rmax x (replicate n x) = x.
Proof.
  induction n as [|n IH]; [done|]. simpl. by rewrite Rmax_left by lra.
Qed.

Lemma score_alice_minus_e1 :
  score_profile minus_e1 alice
  = Ok {| entry_user_id := "a1"; entry_user_name := "Alice"; score := -1;
          centroid_similarity := -1; max_phrase_similarity := -1 |}.
Proof.
  assert (cosine_similarity minus_e1 e1 = Ok (-1)) as Hcos.
  { rewrite (cosine_similarity_Ok 2 minus_e1 e1 ltac:(lia) eq_refl eq_refl).
    by rewrite cosine_minus_e1. }
  unfold score_profile, alice, sample_profile.
  cbn [voice_embedding phrase_embeddings user_id user_name].
  rewrite Hcos. cbn [mbind res_bind].
  rewrite (mapM_res_replicate _ e1 (-1) 5 Hcos). cbn [mbind res_bind].
  change (py_max (replicate 5 (-1))) with (Ok (foldl Rmax (-1) (replicate 4 (-1)))).
  rewrite foldl_Rmax_replicate. cbn [mbind res_bind].
  by rewrite Rmax_left by lra.
Qed.

(** What [identify_speaker] decides at the shipped threshold, when the
    listed profiles are well formed: the returned score is the largest
    score or 0.0, whichever is larger; a profile is returned exactly when
    that is at least 0.82, and then it is a profile with the largest
    score. *)
Lemma identify_speaker_decision (D : nat) (probe : embedding) (st : store) :
  (0 < D)%nat → length probe = D →
  Forall (well_formed D) (load_all_profiles st).1 →
  (load_all_profiles st).1 ≠ [] →
  ∃ m s ranked entries,
    identify_speaker probe IDENTIFICATION_THRESHOLD st = Ok (m, s, Scores ranked)
    ∧ Forall2 (entry_of probe) (load_all_profiles st).1 entries
    ∧ ranked ≡ₚ entries
    ∧ is_max s (0 :: map score entries)
    ∧ (s >= 0.82 ↔ ∃ p, m = Some p)
    ∧ (∀ p, m = Some p → p ∈ (load_all_profiles st).1 ∧ is_score probe p s).
Proof.
  intros HD Hprobe Hwf Hne. unfold identify_speaker.
  destruct (identify_profiles_Ok D probe IDENTIFICATION_THRESHOLD _ HD Hprobe Hwf Hne)
    as (bm & bs & es & -> & HF & Hbs & Hbm).
  do 2 eexists. exists (sort_desc es), es.
  split; [done|]. split; [done|]. split; [apply sort_desc_perm|].
  split; [rewrite Hbs; apply foldl_Rmax_spec|].
  unfold IDENTIFICATION_THRESHOLD.
  destruct (Rge_dec bs 0.82) as [Hge|Hlt].
  - destruct Hbm as [[-> ->]|(p & Hp & -> & Hs & Hpos)]; [lra|].
    split; [split; [intros _; by exists p|done]|]. by intros q [= <-].
  - split; [|done]. split; [done|]. by intros [p ?].
Qed.

(** C3 at a probe that points away from everything enrolled: the one
    profile scores -1, yet the score handed back is 0.0, the value the
    running best was started with; the ranking beside it shows -1. *)
Theorem best_score_not_maximum :
  identify_speaker minus_e1 IDENTIFICATION_THRESHOLD alice_store
  = Ok (None, 0,
        Scores [ {| entry_user_id := "a1"; entry_user_name := "Alice"; score := -1;
                    centroid_similarity := -1; max_phrase_similarity := -1 |} ])
  ∧ identify_voice pooled minus_e1 alice_store
    = Success (NotRecognized 0 IDENTIFICATION_THRESHOLD
        (Scores [ {| entry_user_id := "a1"; entry_user_name := "Alice"; score := -1;
                     centroid_similarity := -1; max_phrase_similarity := -1 |} ]))
  ∧ is_score minus_e1 alice (-1).
Proof.
  assert (identify_speaker minus_e1 IDENTIFICATION_THRESHOLD alice_store
          = Ok (None, 0,
                Scores [ {| entry_user_id := "a1"; entry_user_name := "Alice";
                            score := -1; centroid_similarity := -1;
                            max_phrase_similarity := -1 |} ])) as Hid.
  { unfold identify_speaker, alice_store.
    rewrite load_all_profiles_singleton. cbn [fst].
    unfold identify_profiles. cbn [identify_loop].
    rewrite score_alice_minus_e1. cbn [mbind res_bind score].
    destruct (Rgt_dec (-1) 0) as [?|_]; [lra|].
    cbn [mbind res_bind app sort_desc foldr insert_desc].
    unfold IDENTIFICATION_THRESHOLD. destruct (Rge_dec 0 0.82); [lra|done]. }
  split; [done|]. split.
  - unfold identify_voice, extract_voice_embedding, pooled. cbn [mbind res_bind].
    by rewrite (torch_normalize_unit _ norm_minus_e1), Hid.
  - exists (-1). split.
    + unfold alice, sample_profile. cbn [phrase_embeddings].
      rewrite fmap_replicate, cosine_minus_e1. split.
      * apply list_elem_of_here.
      * intros x [-> _]%elem_of_replicate. lra.
    + unfold alice, sample_profile. cbn [voice_embedding].
      rewrite cosine_minus_e1. by rewrite Rmax_left by lra.
Qed.

(** The response of [identify_voice]: the first five entries of the
    ranking beside a match, the first three otherwise. *)
Lemma identify_voice_response {audio : Type} (wavlm_mean_pool : audio → res embedding)
    (a : audio) (st : store) (probe : embedding) (m : option profile) (s : R)
    (r : ranking) :
  extract_voice_embedding wavlm_mean_pool a = Ok probe →
  identify_speaker probe IDENTIFICATION_THRESHOLD st = Ok (m, s, r) →
  identify_voice wavlm_mean_pool a st
  = Success (match m with
             | Some p => Identified (user_id p) (user_name p) s
                           IDENTIFICATION_THRESHOLD (enrollment_timestamp p)
                           (slice_to 5 r)
             | None => NotRecognized s IDENTIFICATION_THRESHOLD (slice_to 3 r)
             end).
Proof.
  intros Hprobe Hid. unfold identify_voice. rewrite Hprobe. cbn [mbind res_bind].
  rewrite Hid. by destruct m.
Qed.

(** An empty registry is not an error; the message of [identify_speaker]
    goes through the same slice as a ranking would. *)
Lemma identify_voice_empty {audio : Type} (wavlm_mean_pool : audio → res embedding)
    (a : audio) (probe : embedding) :
  extract_voice_embedding wavlm_mean_pool a = Ok probe →
  identify_speaker probe IDENTIFICATION_THRESHOLD ∅
  = Ok (None, 0, Message "No profiles in registry")
  ∧ identify_voice wavlm_mean_pool a ∅
    = Success (NotRecognized 0 IDENTIFICATION_THRESHOLD (Message "No ")).
Proof.
  intros Hprobe.
  assert (identify_speaker probe IDENTIFICATION_THRESHOLD ∅
          = Ok (None, 0, Message "No profiles in registry")) as Hid.
  { unfold identify_speaker. by rewrite load_all_profiles_empty. }
  split; [done|].
  by rewrite (identify_voice_response _ _ _ _ _ _ _ Hprobe Hid).
Qed.

(** * Beyond the claims *)

(** ** The range of a cosine *)









(** ** What [create_voice_profile] returns and raises *)

Lemma create_voice_profile_record (uuid4 : string) (now : R)
    (embeddings : list embedding) (name : string) (l : list Z) (p : profile) :
  create_voice_profile uuid4 now embeddings name l = Ok p →
  ∃ D m used,
    (0 < D)%nat ∧ same_dim D embeddings ∧ (2 ≤ length embeddings)%nat
    ∧ min_pairwise embeddings m ∧ ¬ m < CONSISTENCY_THRESHOLD
    ∧ mapM (py_index ENROLLMENT_PHRASES) l = Ok used
    ∧ p = {| user_id := uuid4;
             user_name := name;
             voice_embedding :=
               vdiv (np_mean_axis0 embeddings) (norm (np_mean_axis0 embeddings));
             phrase_embeddings := embeddings;
             phrase_indices := l;
             phrases_used := used;
             consistency_score :=
               rsum (all_pairs embeddings) / INR (length (all_pairs embeddings));
             min_consistency := m;
             enrollment_timestamp := now;
             embedding_dim := length (np_mean_axis0 embeddings) |}.
Proof.
  intros H.
  destruct (create_voice_profile_Ok_inv _ _ _ _ _ _ H) as (D & HD & Hdim & HN).
  destruct (create_voice_profile_gate D uuid4 now embeddings name l HD Hdim HN)
    as (m & Hmin & Hcreate).
  rewrite Hcreate in H. destruct (Rlt_dec m CONSISTENCY_THRESHOLD) as [|Hm]; [done|].
  apply bind_Ok in H as (used & Hused & H). injection H as <-.
  by exists D, m, used.
Qed.

Lemma length_np_mean_axis0 (D : nat) (embeddings : list embedding) :
  embeddings ≠ [] → same_dim D embeddings → length (np_mean_axis0 embeddings) = D.
Proof.
  intros Hne Hdim. rewrite (np_mean_axis0_elementwise D) by done.
  unfold elementwise_mean. by rewrite length_map, length_seq.
Qed.

Lemma mapM_res_length {A B} (f : A → res B) (l : list A) (k : list B) :
  mapM f l = Ok k → length k = length l.
Proof.
  intros H%mapM_res_Forall2. symmetry. by apply (Forall2_length _ _ _ H).
Qed.



(** X2. The shape of a created profile: it carries the identifier, name,
    time, samples and indices it was given; the recorded dimension is the
    common dimension of the samples and of the centroid; and
    [phrases_used] lists, index by index, the catalogue phrase that
    Python indexing finds (a negative index counts from the end). *)
Theorem created_profile_shape (uuid4 : string) (now : R)
    (embeddings : list embedding) (name : string) (l : list Z) (p : profile) :
  create_voice_profile uuid4 now embeddings name l = Ok p →
  user_id p = uuid4 ∧ user_name p = name ∧ enrollment_timestamp p = now
  ∧ phrase_embeddings p = embeddings ∧ phrase_indices p = l
  ∧ (0 < embedding_dim p)%nat
  ∧ same_dim (embedding_dim p) embeddings
  ∧ length (voice_embedding p) = embedding_dim p
  ∧ length (phrases_used p) = length l
  ∧ (∀ k i, l !! k = Some i →
       (- Z.of_nat (length ENROLLMENT_PHRASES) ≤ i
        < Z.of_nat (length ENROLLMENT_PHRASES))%Z
       ∧ phrases_used p !! k
         = ENROLLMENT_PHRASES !! Z.to_nat (if decide (0 ≤ i)%Z then i
                                 else Z.of_nat (length ENROLLMENT_PHRASES) + i)).
Proof.
  intros H.
  destruct (create_voice_profile_record _ _ _ _ _ _ H)
    as (D & m & used & HD & Hdim & HN & Hmin & Hm & Hused & ->).
  simpl.
  assert (embeddings ≠ []) as Hne by (destruct embeddings; [simpl in HN; lia|done]).
  rewrite length_vdiv, (length_np_mean_axis0 D) by done.
  do 5 (split; [done|]). do 3 (split; [done|]).
  split; [by apply mapM_res_length in Hused|].
  intros k i Hk. apply mapM_res_Forall2 in Hused.
  destruct (Forall2_lookup_l _ _ _ _ _ Hused Hk) as (s & Hs & Hi).
  unfold py_index in Hi. rewrite Hs.
  change (length ENROLLMENT_PHRASES) with 15%nat in Hi.
  destruct (decide (0 ≤ i)%Z); case_decide; try done;
    (split; [lia|]); by destruct (ENROLLMENT_PHRASES !! _); simplify_eq.
Qed.

Lemma created_profile_shape_witness :
  length (phrases_used (sample_profile "u1" "bob" e1)) = length sample_indices.
Proof.
  refine (proj1 (proj2 (proj2 (proj2 (proj2 (proj2 (proj2 (proj2 (proj2
    (created_profile_shape "u1" 0 (replicate 5 e1) "bob" sample_indices
       (sample_profile "u1" "bob" e1) _)))))))))).
  rewrite (create_voice_profile_replicate _ _ 5 e1 _ _ _
             ltac:(rewrite dot_e1; lra) ltac:(lia) sample_phrases_used).
  unfold sample_profile. by rewrite norm_e1, vdiv_1.
Defined.

Lemma cosine_row_raise (e : embedding) (rest : list embedding) (err : exn) :
  mapM (cosine_similarity e) rest = Raise err → err = ValueError_dimension.
Proof.
  induction rest as [|b rest IH]; [done|]. simpl.
  destruct (cosine_similarity e b) as [y|err'] eqn:E; simpl.
  - destruct (mapM (cosine_similarity e) rest); simpl; [done|].
    intros [= <-]. by apply IH.
  - intros [= <-]. unfold cosine_similarity in E. by case_decide; simplify_eq.
Qed.

Lemma pairwise_similarities_raise (embeddings : list embedding) (err : exn) :
  pairwise_similarities embeddings = Raise err → err = ValueError_dimension.
Proof.
  induction embeddings as [|e rest IH]; [done|]. simpl.
  destruct (mapM (cosine_similarity e) rest) as [row|err'] eqn:E; simpl.
  - destruct (pairwise_similarities rest); simpl; [done|].
    intros [= <-]. by apply IH.
  - intros [= <-]. by apply cosine_row_raise in E.
Qed.

Lemma pairwise_similarities_same_dim (embeddings : list embedding) (sims : list R) :
  pairwise_similarities embeddings = Ok sims → (2 ≤ length embeddings)%nat →
  ∃ D, (0 < D)%nat ∧ same_dim D embeddings.
Proof.
  destruct embeddings as [|a [|b rest]]; simpl length; [lia|lia|].
  intros Hsims _. simpl in Hsims. apply bind_Ok in Hsims as (row & Hrow & _).
  apply (mapM_res_inv _ (b :: rest)) in Hrow.
  exists (length a). split.
  - apply Forall_cons in Hrow as [Hb _].
    by apply cosine_similarity_inv in Hb as [_ ?].
  - constructor; [done|]. eapply Forall_impl; [exact Hrow|].
    intros c Hc. by apply cosine_similarity_inv in Hc as [? _].
Qed.

Lemma py_index_Ok_iff {A} (l : list A) (i : Z) :
  is_ok (py_index l i) ↔ (- Z.of_nat (length l) ≤ i < Z.of_nat (length l))%Z.
Proof.
  unfold py_index, is_ok. split.
  - intros [x Hx]. destruct (decide (0 ≤ i)%Z); case_decide; try done; lia.
  - intros Hi.
    destruct (decide (0 ≤ i)%Z).
    + rewrite decide_True by lia.
      destruct (lookup_lt_is_Some_2 l (Z.to_nat i)) as [x ->]; [lia|]. by exists x.
    + rewrite decide_True by lia.
      destruct (lookup_lt_is_Some_2 l (Z.to_nat (Z.of_nat (length l) + i)))
        as [x ->]; [lia|]. by exists x.
Qed.

Lemma mapM_res_Ok_iff {A B} (f : A → res B) (l : list A) :
  is_ok (mapM f l) ↔ Forall (λ x, is_ok (f x)) l.
Proof.
  split.
  - intros [k Hk]. by apply (mapM_res_inv _ _ k).
  - induction 1 as [|x l [y Hy] _ [k IH]]; [by exists []|].
    exists (y :: k). simpl. rewrite Hy. simpl. by rewrite IH.
Qed.

(** X3. How [create_voice_profile] ends on every input.  Fewer than two
    samples: [StatisticsError], whatever else is passed.  Two or more
    samples that are not all of one positive dimension: the [ValueError]
    of the similarity routine.  A batch of one dimension whose least
    pairwise similarity is at least 0.70: a profile when every phrase
    index lies in [-15, 15), and [IndexError] otherwise. *)
Theorem create_voice_profile_outcome (uuid4 : string) (now : R)
    (embeddings : list embedding) (name : string) (l : list Z) :
  ((length embeddings < 2)%nat →
     create_voice_profile uuid4 now embeddings name l = Raise StatisticsError)
  ∧ ((2 ≤ length embeddings)%nat →
     ¬ (∃ D, (0 < D)%nat ∧ same_dim D embeddings) →
     create_voice_profile uuid4 now embeddings name l = Raise ValueError_dimension)
  ∧ (∀ D m, (2 ≤ length embeddings)%nat → (0 < D)%nat → same_dim D embeddings →
       min_pairwise embeddings m → ¬ m < 0.70 →
       (Forall (λ i, (-15 ≤ i < 15)%Z) l →
          is_ok (create_voice_profile uuid4 now embeddings name l))
       ∧ (¬ Forall (λ i, (-15 ≤ i < 15)%Z) l →
          create_voice_profile uuid4 now embeddings name l = Raise IndexError)).
Proof.
  split; [|split].
  - intros HN. destruct embeddings as [|a [|b rest]]; [done|done|simpl in HN; lia].
  - intros HN Hdim. unfold create_voice_profile.
    destruct (pairwise_similarities embeddings) as [sims|err] eqn:E.
    + destruct Hdim. by apply (pairwise_similarities_same_dim _ sims).
    + by apply pairwise_similarities_raise in E as ->.
  - intros D m HN HD Hdim Hmin Hm.
    destruct (create_voice_profile_gate D uuid4 now embeddings name l HD Hdim HN)
      as (m0 & Hmin0 & ->).
    rewrite (min_pairwise_unique _ _ _ Hmin0 Hmin). unfold CONSISTENCY_THRESHOLD.
    destruct (Rlt_dec m 0.70); [done|].
    assert (Forall (λ i, (-15 ≤ i < 15)%Z) l
            ↔ is_ok (mapM (py_index ENROLLMENT_PHRASES) l)) as Hiff.
    { rewrite mapM_res_Ok_iff. apply Forall_iff. intros i.
      by rewrite py_index_Ok_iff. }
    split.
    + intros [used ->]%Hiff. simpl. by eexists.
    + intros Hbad.
      destruct (mapM (py_index ENROLLMENT_PHRASES) l) as [used|err] eqn:E.
      * destruct Hbad. apply Hiff. by exists used.
      * by apply phrases_used_raise in E as ->.
Qed.

(** ** The extractor's output *)



(** ** When [register_voice] succeeds *)





(** ** Invariants of the registry *)












(** ** Registration, listing and deletion together *)

Lemma register_voice_Success_inv {audio : Type} (py_int_strip : string → option Z)
    (wavlm_mean_pool : audio → res embedding) (uuid4 : string) (now : R)
    (io : write_outcome) (name indices : string) (audios : list audio)
    (st st' : store) (b : registered) :
  register_voice py_int_strip wavlm_mean_pool uuid4 now io name indices audios st
  = (Success b, st') →
  ∃ p, st' = <[profile_path uuid4 := Json p]> st
       ∧ user_id p = uuid4 ∧ user_name p = name ∧ b = summary p.
Proof.
  intros Hreg.
  destruct (register_voice_cases py_int_strip wavlm_mean_pool uuid4 now io name
              indices audios st) as [[err Herr]|[l Hl]]; [congruence|].
  rewrite Hl in Hreg.
  destruct (register_try_cases wavlm_mean_pool uuid4 now io name l audios st)
    as [(e & _ & He)|(p & Hp & Htry)]; [congruence|].
  rewrite Htry in Hreg. destruct io; try done. injection Hreg as <- <-.
  exists p. split; [done|]. split; [by apply build_profile_user_id in Hp|].
  split; [|done]. unfold build_profile in Hp.
  apply bind_Ok in Hp as (embs & _ & Hp).
  by apply create_voice_profile_fields in Hp as (_ & ? & _).
Qed.

Lemma load_profiles_insert_json (uid : string) (p : profile) (st : store) :
  st !! profile_path uid = None →
  (load_all_profiles (<[profile_path uid := Json p]> st)).1
  ≡ₚ p :: (load_all_profiles st).1.
Proof.
  intros Hnone. unfold load_all_profiles. rewrite !load_entries_omap.
  rewrite (map_to_list_insert st _ (Json p) Hnone). simpl.
  unfold readable_profile at 1. simpl. by rewrite endswith_profile_path.
Qed.

Lemma load_profiles_delete_json (uid : string) (p : profile) (st : store) :
  st !! profile_path uid = Some (Json p) →
  (load_all_profiles st).1
  ≡ₚ p :: (load_all_profiles (delete (profile_path uid) st)).1.
Proof.
  intros Hp. unfold load_all_profiles. rewrite !load_entries_omap.
  rewrite <- (map_to_list_delete st _ _ Hp). simpl.
  unfold readable_profile at 1. simpl. by rewrite endswith_profile_path.
Qed.

(** X7. A successful registration under an identifier that was not in use
    adds exactly one profile to what the read-only endpoints show: the
    listing is the old one plus the new profile, [/health] counts one
    more voice, and [/voice_registry] shows one more entry, which carries
    the identifier, name and consistency score of the response and as
    many phrases as recordings were sent. *)
Theorem registration_is_listed {audio : Type} (py_int_strip : string → option Z)
    (wavlm_mean_pool : audio → res embedding) (uuid4 : string) (now : R)
    (io : write_outcome) (name indices : string) (audios : list audio)
    (st st' : store) (b : registered) :
  register_voice py_int_strip wavlm_mean_pool uuid4 now io name indices audios st
  = (Success b, st') →
  st !! profile_path uuid4 = None →
  ∃ p, (load_all_profiles st').1 ≡ₚ p :: (load_all_profiles st).1
    ∧ registered_voices (health st') = S (registered_voices (health st))
    ∧ total_voices (get_voice_registry st') = S (total_voices (get_voice_registry st))
    ∧ voices (get_voice_registry st')
      ≡ₚ registry_entry p :: voices (get_voice_registry st)
    ∧ voice_user_id (registry_entry p) = reg_user_id b
    ∧ voice_user_name (registry_entry p) = reg_user_name b
    ∧ voice_consistency_score (registry_entry p) = reg_consistency_score b
    ∧ voice_phrases_count (registry_entry p) = reg_phrases_recorded b
    ∧ reg_user_id b = uuid4 ∧ reg_user_name b = name.
Proof.
  intros Hreg Hfresh.
  destruct (register_voice_Success_inv _ _ _ _ _ _ _ _ _ _ _ Hreg)
    as (p & -> & Hid & Hname & ->).
  pose proof (load_profiles_insert_json uuid4 p st Hfresh) as Hperm.
  exists p. split; [done|].
  unfold health, get_voice_registry. simpl.
  rewrite !length_map, Hperm. simpl.
  do 3 (split; [done|]). by repeat split.
Qed.

Lemma registration_is_listed_witness :
  registered_voices
    (health (register_voice int_of_digit pooled "u1" 0 WriteCompletes "bob"
               sample_form (replicate 5 e1) ∅).2) = 1%nat.
Proof.
  assert (register_voice int_of_digit pooled "u1" 0 WriteCompletes "bob"
            sample_form (replicate 5 e1) ∅
          = (Success (summary (sample_profile "u1" "bob" e1)),
             <[profile_path "u1" := Json (sample_profile "u1" "bob" e1)]> ∅)) as Hreg.
  { rewrite (register_voice_validated _ _ _ _ _ _ _ _ _ sample_indices)
      by by apply passes_validation_sample.
    rewrite load_all_profiles_empty. simpl.
    unfold register_try. rewrite build_sample_profile.
    by rewrite save_completes. }
  destruct (registration_is_listed _ _ _ _ _ _ _ _ _ _ _ Hreg (lookup_empty _))
    as (p & _ & Hcount & _).
  rewrite Hreg. cbn [snd]. rewrite Hcount.
  unfold health. by rewrite load_all_profiles_empty.
Defined.

(** X8. Registration followed by deletion of the identifier it returned
    gives back the registry as it was (when that identifier was not in
    use before), and the deletion answers with the registered name. *)
Theorem register_then_delete {audio : Type} (py_int_strip : string → option Z)
    (wavlm_mean_pool : audio → res embedding) (uuid4 : string) (now : R)
    (io : write_outcome) (name indices : string) (audios : list audio)
    (st st' : store) (b : registered) :
  register_voice py_int_strip wavlm_mean_pool uuid4 now io name indices audios st
  = (Success b, st') →
  st !! profile_path uuid4 = None →
  delete_voice (reg_user_id b) st' = (Success (reg_user_name b), st).
Proof.
  intros Hreg Hfresh.
  destruct (register_voice_Success_inv _ _ _ _ _ _ _ _ _ _ _ Hreg)
    as (p & -> & Hid & Hname & ->).
  simpl. rewrite Hid. unfold delete_voice. rewrite lookup_insert_eq.
  by rewrite delete_insert_id.
Qed.

Lemma register_then_delete_witness :
  delete_voice "u1" (<[profile_path "u1" := Json (sample_profile "u1" "bob" e1)]> ∅)
  = (Success "bob", ∅).
Proof.
  refine (register_then_delete int_of_digit pooled "u1" 0 WriteCompletes "bob"
            sample_form (replicate 5 e1) ∅ _
            (summary (sample_profile "u1" "bob" e1)) _ (lookup_empty _)).
  rewrite (register_voice_validated _ _ _ _ _ _ _ _ _ sample_indices)
    by by apply passes_validation_sample.
  rewrite load_all_profiles_empty. simpl.
  unfold register_try. rewrite build_sample_profile.
  by rewrite save_completes.
Defined.

(** X9. A successful deletion removes exactly one profile from what the
    read-only endpoints show, the one whose name it reports: the old
    listing is the new one plus that profile, and [/health] counts one
    voice fewer. *)
Theorem deletion_is_listed (uid : string) (st st' : store) (n : string) :
  delete_voice uid st = (Success n, st') →
  ∃ p, st !! profile_path uid = Some (Json p) ∧ n = user_name p
    ∧ (load_all_profiles st).1 ≡ₚ p :: (load_all_profiles st').1
    ∧ registered_voices (health st) = S (registered_voices (health st'))
    ∧ (∀ q, q ∈ (load_all_profiles st').1 → q ∈ (load_all_profiles st).1).
Proof.
  unfold delete_voice.
  destruct (st !! profile_path uid) as [[p|]|] eqn:Hp; [|done..].
  intros [= <- <-]. exists p. split; [done|]. split; [done|].
  pose proof (load_profiles_delete_json uid p st Hp) as Hperm.
  split; [done|]. split.
  - unfold health. simpl. by rewrite Hperm.
  - intros q Hq. rewrite Hperm. by apply list_elem_of_further.
Qed.

Lemma deletion_is_listed_witness :
  registered_voices (health alice_store)
  = S (registered_voices (health (delete (profile_path "a1") alice_store))).
Proof.
  assert (delete_voice "a1" alice_store
          = (Success "Alice", delete (profile_path "a1") alice_store)) as Hdel.
  { unfold delete_voice, alice_store. by rewrite lookup_singleton_eq. }
  destruct (deletion_is_listed _ _ _ _ Hdel) as (p & _ & _ & _ & Hcount & _).
  exact Hcount.
Defined.

(** ** Who is identified *)









(** ** Probes with a known answer *)

















(** ** Statistics *)


(** ** The form field, written by the client and read by the server *)










(** ** The recording loop *)

(** X17. For a duration of [d] seconds (below 2^46) the recording loop reads
    floor(15.625·d) chunks of 1024 frames: never more than the 16000·d
    frames asked for, short of them by less than one chunk, exactly
    16000·d when [d] is a multiple of 8, and nothing at all when [d] is
    zero or negative. *)
Theorem recorded_frames_bounds (d : Z) :
  ((0 ≤ d < 2 ^ 46)%Z →
     (Z.of_nat (recorded_chunks d) = 125 * d / 8)%Z
     ∧ (RECORD_SAMPLE_RATE * d - RECORD_CHUNK < recorded_frames d
        ≤ RECORD_SAMPLE_RATE * d)%Z
     ∧ ((d mod 8 = 0)%Z → recorded_frames d = (RECORD_SAMPLE_RATE * d)%Z))
  ∧ ((- 2 ^ 46 < d ≤ 0)%Z → recorded_chunks d = 0%nat ∧ recorded_frames d = 0%Z).
Proof.
  unfold recorded_frames, recorded_chunks, RECORD_SAMPLE_RATE, RECORD_CHUNK. split.
  - intros Hd. rewrite Z.quot_div_nonneg by lia.
    assert (0 ≤ 125 * d / 8)%Z as Hq by (apply Z.div_pos; lia).
    rewrite Z2Nat.id by done. split; [done|].
    pose proof (Z.div_mod (125 * d) 8 ltac:(lia)) as Hdm.
    pose proof (Z.mod_pos_bound (125 * d) 8 ltac:(lia)) as Hm.
    split; [lia|]. intros H8.
    assert ((125 * d) mod 8 = 0)%Z as H0.
    { rewrite <- Z.mul_mod_idemp_r, H8 by lia. by rewrite Z.mul_0_r. }
    lia.
  - intros Hd.
    assert (Z.quot (125 * d) 8 ≤ 0)%Z as Hq.
    { apply Z.quot_le_upper_bound; lia. }
    rewrite Z2Nat.nonpos by done. done.
Qed.

(** ** Files that are not records *)

Lemma listing_without (f : string) (st : store) :
  endswith f ".json" = false →
  omap readable_profile (map_to_list st)
  ≡ₚ omap readable_profile (map_to_list (delete f st)).
Proof.
  intros Hf. destruct (st !! f) as [c|] eqn:E.
  - rewrite <- (map_to_list_delete st f c E). simpl.
    unfold readable_profile at 1. simpl. by rewrite Hf.
  - by rewrite delete_id.
Qed.

(** X18. A file whose name does not end in [.json] is invisible to the
    registry: creating, overwriting or removing it changes neither the
    profiles listed (up to order), nor the count of [/health], nor the
    warnings. *)
Theorem other_files_ignored (f : string) (c : file) (st : store) :
  endswith f ".json" = false →
  (load_all_profiles (<[f := c]> st)).1 ≡ₚ (load_all_profiles st).1
  ∧ (load_all_profiles (delete f st)).1 ≡ₚ (load_all_profiles st).1
  ∧ registered_voices (health (<[f := c]> st)) = registered_voices (health st)
  ∧ registered_voices (health (delete f st)) = registered_voices (health st)
  ∧ (∀ name, name ∈ (load_all_profiles (<[f := c]> st)).2
             ↔ name ∈ (load_all_profiles st).2)
  ∧ (∀ name, name ∈ (load_all_profiles (delete f st)).2
             ↔ name ∈ (load_all_profiles st).2).
Proof.
  intros Hf.
  assert ((load_all_profiles (delete f st)).1 ≡ₚ (load_all_profiles st).1) as Hdel.
  { unfold load_all_profiles. rewrite !load_entries_omap.
    symmetry. by apply listing_without. }
  assert ((load_all_profiles (<[f := c]> st)).1 ≡ₚ (load_all_profiles st).1) as Hins.
  { rewrite <- Hdel. unfold load_all_profiles. rewrite !load_entries_omap.
    rewrite <- (insert_delete_eq st).
    rewrite (map_to_list_insert (delete f st) f c (lookup_delete_eq st f)).
    simpl. unfold readable_profile at 1. simpl. by rewrite Hf. }
  split; [done|]. split; [done|].
  unfold health. simpl. split; [by rewrite Hins|]. split; [by rewrite Hdel|].
  split; intros name; rewrite !elem_of_load_all_warned.
  - rewrite lookup_insert. case_decide as Hn; [|done].
    subst name. rewrite Hf. naive_solver.
  - rewrite lookup_delete. case_decide as Hn; [|done].
    subst name. rewrite Hf. naive_solver.
Qed.

Lemma other_files_ignored_witness :
  registered_voices (health (<["notes.txt" := Unreadable]> alice_store))
  = registered_voices (health alice_store).
Proof.
  refine (proj1 (proj2 (proj2 (other_files_ignored "notes.txt" Unreadable
                                 alice_store _)))).
  reflexivity.
Defined.

(** ** Only the direction of a probe matters *)








(** ** The order of the samples *)








